(** * jquants-proxy: the caching, authenticating Worker, embedded in Rocq

    Sources embedded here:
    - [src/index.ts]  the Worker entrypoint: [get], [#fetchWithCache],
      [#checkConfig], [#getToken], [#getRefreshToken],
      [#getNewRefreshToken], [#getNewIdToken];
    - [src/cache.ts]  the response cache helpers: [getCache], [putCache],
      [deleteCache], [setDebugHeaders].

    The Worker is asynchronous JavaScript that talks to three outside
    services (the edge cache [caches.default], the KV namespace and the
    JQuants API) and that mutates [Response] objects.  It is modelled by a
    state-and-exception monad over a [World] that holds the JavaScript heap
    of [Response] objects and the body streams that they share, the contents
    of the two stores, the answers of the upstream API, the promises handed
    to [waitUntil], and a log of every observable effect.  Each [await] is a
    monadic bind; a rejected promise is a [Throw]. *)

From Stdlib Require Import Ascii.
From stdpp Require Import base gmap list strings pretty.

Local Open Scope Z_scope.

(** ** Constants of [src/index.ts] and [src/cache.ts] *)

Definition API_BASE_URL : string := "https://api.jquants.com".

(** Refresh token TTL: 6 days.  The comment in the source says that the
    token really lives 7 days. *)
Definition REFRESH_TOKEN_TTL : Z := 60 * 60 * 24 * 6.
Definition UPSTREAM_REFRESH_TOKEN_LIFETIME : Z := 60 * 60 * 24 * 7.

(** ID token TTL: 23 hours.  The comment in the source says that the token
    really lives 24 hours. *)
Definition ID_TOKEN_TTL : Z := 60 * 60 * 23.
Definition UPSTREAM_ID_TOKEN_LIFETIME : Z := 60 * 60 * 24.

(** Default cache TTL in seconds. *)
Definition CACHE_MAX_AGE : Z := 60 * 10.

Definition X_PROXY_CACHE_MAXAGE_KEY : string := "x-proxy-cache-maxage".
Definition X_PROXY_CACHE_AGE_KEY : string := "x-proxy-cache-age".

Definition REFRESH_TOKEN_KEY : string := "refresh_token".
Definition ID_TOKEN_KEY : string := "id_token".

(** ** JavaScript values *)

(** A header list is a map from lower-cased names to values: the [Headers]
    class normalises every name it is given. *)
Definition ascii_lower (c : ascii) : ascii :=
  let n := nat_of_ascii c in
  if ((65 <=? n) && (n <=? 90))%nat then ascii_of_nat (n + 32) else c.

Fixpoint lower (s : string) : string :=
  match s with
  | EmptyString => EmptyString
  | String c s' => String (ascii_lower c) (lower s')
  end.

Definition headers_get (h : gmap string string) (name : string) : option string :=
  h !! lower name.

Definition headers_set (h : gmap string string) (name value : string) : gmap string string :=
  <[lower name := value]> h.

Definition headers_delete (h : gmap string string) (name : string) : gmap string string :=
  delete (lower name) h.

(** A [Response] object.  [bodyUsed] says that its body stream can no longer
    be handed out: it has been read or is being read (disturbed or locked,
    in the words of the Fetch standard).  [immutable] is the guard of its
    header list: the responses that [fetch] and [caches.default.match] hand
    out cannot have their headers changed. *)
Record Response := mkResponse {
  status : Z;
  statusText : string;
  headers : gmap string string;
  body : string;
  bodyUsed : bool;
  immutable : bool
}.

(** [res.ok] *)
Definition ok (r : Response) : bool := (200 <=? status r) && (status r <=? 299).

Definition with_headers (h : gmap string string) (r : Response) : Response :=
  mkResponse (status r) (statusText r) h (body r) (bodyUsed r) (immutable r).

Definition with_bodyUsed (b : bool) (r : Response) : Response :=
  mkResponse (status r) (statusText r) (headers r) (body r) b (immutable r).

(** The object that the platform creates for a response coming from the
    network or from the cache: body unread, headers guarded. *)
Definition incoming (r : Response) : Response :=
  mkResponse (status r) (statusText r) (headers r) (body r) false true.

(** The request that [fetch(url, init)] sends. *)
Record Request := mkRequest {
  req_method : string;
  req_url : string;
  req_headers : gmap string string;
  req_body : option string
}.

Inductive FetchResult :=
| NetOk (r : Response)
| NetFail (msg : string).

(** What can be thrown. *)
Inductive Exn :=
| JsError (msg : string)        (* [new Error(msg)] of the Worker itself *)
| TypeError (msg : string)
| SyntaxError (msg : string)    (* [res.json()] on a body that is not JSON *)
| FetchError (msg : string)     (* [fetch] rejected: transport failure *)
| CacheError (msg : string).    (* [caches.default] rejected *)

(** [this.env] without the KV binding, which lives in the [World]. *)
Record Env := mkEnv {
  JQUANTS_API_EMAIL : option string;
  JQUANTS_API_PW : option string
}.

(** The functions of the runtime that the Worker calls and that are not
    part of the repository. *)
Class Platform := {
  (** [new Date(s).getTime()], in milliseconds; [None] is [NaN]. *)
  Date_getTime : string -> option Z;
  (** [JSON.parse] at the type the source casts to: an object with string
      fields; [None] when parsing, or reading a field, would throw. *)
  JSON_parse : string -> option (gmap string string);
  (** [JSON.stringify] of an object literal; an [undefined] field is [None]. *)
  JSON_stringify : list (string * option string) -> string;
  (** How long, in seconds, the edge cache keeps a response it is given
      ([None]: it does not keep it). *)
  cache_lifetime : Response -> option Z
}.

(** ** The world *)

Definition loc := nat.

Inductive Task :=
| PutTask (req : string) (res : loc)
| DeleteTask (req : string)
| RejectedTask (why : string).

Inductive Event :=
| CacheMatch (req : string)
| CachePut (req : string) (res : loc)
| CacheDelete (req : string)
| KvGet (key : string)
| KvPut (key value : string) (expirationTtl : Z)
| Fetch (req : Request)
| ConsoleDebug (msg : string).

Record World := mkWorld {
  (** [Date.now()], in milliseconds *)
  now : Z;
  (** the [Response] objects; a reference is an index *)
  heap : list Response;
  (** [caches.default]: URL to stored response and the instant it expires *)
  edge : gmap string (Response * Z);
  (** [Some msg] when the cache backend is failing *)
  edge_fault : option string;
  (** [env.KV]: key to value and the instant it expires, if any *)
  KV : gmap string (string * option Z);
  (** the JQuants API: the answer to the [n]-th request of the Worker *)
  upstream : nat -> Request -> FetchResult;
  fetches : nat;
  (** the promises given to [ctx.waitUntil], in order *)
  background : list Task;
  (** every effect so far, in order *)
  log : list Event;
  (** body streams: an object built by [new Response(src.body, src)] holds
      the stream of [src], recorded here; every other object holds a stream
      of its own *)
  body_stream : gmap loc nat
}.

Definition set_now (t : Z) (w : World) : World :=
  mkWorld t (heap w) (edge w) (edge_fault w) (KV w) (upstream w) (fetches w)
          (background w) (log w) (body_stream w).

Definition set_heap (h : list Response) (w : World) : World :=
  mkWorld (now w) h (edge w) (edge_fault w) (KV w) (upstream w) (fetches w)
          (background w) (log w) (body_stream w).

Definition set_edge (c : gmap string (Response * Z)) (w : World) : World :=
  mkWorld (now w) (heap w) c (edge_fault w) (KV w) (upstream w) (fetches w)
          (background w) (log w) (body_stream w).

Definition set_KV (k : gmap string (string * option Z)) (w : World) : World :=
  mkWorld (now w) (heap w) (edge w) (edge_fault w) k (upstream w) (fetches w)
          (background w) (log w) (body_stream w).

Definition set_fetches (n : nat) (w : World) : World :=
  mkWorld (now w) (heap w) (edge w) (edge_fault w) (KV w) (upstream w) n
          (background w) (log w) (body_stream w).

Definition set_background (b : list Task) (w : World) : World :=
  mkWorld (now w) (heap w) (edge w) (edge_fault w) (KV w) (upstream w) (fetches w)
          b (log w) (body_stream w).

Definition set_log (l : list Event) (w : World) : World :=
  mkWorld (now w) (heap w) (edge w) (edge_fault w) (KV w) (upstream w) (fetches w)
          (background w) l (body_stream w).

Definition set_body_stream (m : gmap loc nat) (w : World) : World :=
  mkWorld (now w) (heap w) (edge w) (edge_fault w) (KV w) (upstream w) (fetches w)
          (background w) (log w) m.

(** The body stream that the object at [l] holds.  Streams are numbered
    like the object they were created for, so the stream of an object is
    its own number unless [body_stream] names an older one. *)
Definition stream (m : gmap loc nat) (l : loc) : nat :=
  match m !! l with
  | Some s => if decide (s < l)%nat then s else l
  | None => l
  end.

Definition stream_of (w : World) (l : loc) : nat := stream (body_stream w) l.

(** Reading the stream of [l] uses up the body of every object that holds
    that stream. *)
Definition mark_used (m : gmap loc nat) (l : loc) (h : list Response) :
    list Response :=
  imap (fun i r => if decide (stream m i = stream m l) then with_bodyUsed true r
                   else r) h.

(** ** The monad *)

Inductive Outcome (A : Type) :=
| Return (a : A)
| Throw (e : Exn).
Arguments Return {A} a.
Arguments Throw {A} e.

Definition M (A : Type) : Type := World -> Outcome A * World.

Definition ret {A} (a : A) : M A := fun w => (Return a, w).

Definition throw {A} (e : Exn) : M A := fun w => (Throw e, w).

Definition bind {A B} (m : M A) (k : A -> M B) : M B :=
  fun w =>
    match m w with
    | (Return a, w') => k a w'
    | (Throw e, w') => (Throw e, w')
    end.

Notation "'do' x <- m ; k" := (bind m (fun x => k))
  (at level 10, x name, m at level 99, k at level 200, only parsing).
Notation "m ;; k" := (bind m (fun _ => k))
  (at level 100, k at level 200, right associativity, only parsing).

(** ** Runtime primitives *)

Definition emit (e : Event) : M unit :=
  fun w => (Return tt, set_log (log w ++ [e]) w).

(** [console.debug] *)
Definition console_debug (msg : string) : M unit := emit (ConsoleDebug msg).

(** [Date.now()] *)
Definition Date_now : M Z := fun w => (Return (now w), w).

(** A new object with a body stream of its own. *)
Definition alloc (r : Response) : M loc :=
  fun w =>
    let l := length (heap w) in
    (Return l,
     set_body_stream (delete l (body_stream w)) (set_heap (heap w ++ [r]) w)).

(** A new object that holds the body stream of [src]. *)
Definition alloc_on (src : loc) (r : Response) : M loc :=
  fun w =>
    let l := length (heap w) in
    (Return l,
     set_body_stream (<[l := stream_of w src]> (body_stream w))
                     (set_heap (heap w ++ [r]) w)).

(** The body of [l] is read: its stream is used up. *)
Definition consume (l : loc) : M unit :=
  fun w => (Return tt, set_heap (mark_used (body_stream w) l (heap w)) w).

Definition deref (l : loc) : M Response :=
  fun w =>
    match heap w !! l with
    | Some r => (Return r, w)
    | None => (Throw (TypeError "not a Response"), w)
    end.

Definition store (l : loc) (r : Response) : M unit :=
  fun w => (Return tt, set_heap (<[l := r]> (heap w)) w).

(** [res.headers.get(name)] *)
Definition Response_headers_get (l : loc) (name : string) : M (option string) :=
  do r <- deref l;
  ret (headers_get (headers r) name).

(** [res.headers.set(name, value)]; a guarded header list refuses. *)
Definition Response_headers_set (l : loc) (name value : string) : M unit :=
  do r <- deref l;
  if immutable r then throw (TypeError "Can't modify immutable headers.")
  else store l (with_headers (headers_set (headers r) name value) r).

(** [res.headers.delete(name)] *)
Definition Response_headers_delete (l : loc) (name : string) : M unit :=
  do r <- deref l;
  if immutable r then throw (TypeError "Can't modify immutable headers.")
  else store l (with_headers (headers_delete (headers r) name) r).

(** [res.clone()]: a new object with the same content and, the stream
    being teed, a body stream of its own; refused once the body has been
    read. *)
Definition Response_clone (l : loc) : M loc :=
  do r <- deref l;
  if bodyUsed r then throw (TypeError "Body has already been used.")
  else alloc r.

(** [new Response(src.body, src)]: a new object with the status and a copy
    of the headers of [src], not guarded, and with the body stream of [src]
    itself: whoever reads the body of the one uses up the body of the
    other. *)
Definition new_Response (src : loc) : M loc :=
  do r <- deref src;
  if bodyUsed r then throw (TypeError "Body has already been used.")
  else alloc_on src
         (mkResponse (status r) (statusText r) (headers r) (body r) false false).

(** [res.ok] *)
Definition Response_ok (l : loc) : M bool :=
  do r <- deref l;
  ret (ok r).

(** [fetch(req)] *)
Definition fetch (req : Request) : M loc :=
  emit (Fetch req) ;;
  fun w =>
    let w' := set_fetches (S (fetches w)) w in
    match upstream w (fetches w) req with
    | NetOk r => alloc (incoming r) w'
    | NetFail msg => (Throw (FetchError msg), w')
    end.

(** Is the entry still there at instant [t]? *)
Definition live (t : Z) (expiry : option Z) : bool :=
  match expiry with
  | Some e => t <? e
  | None => true
  end.

(** What the KV namespace holds under [key] right now. *)
Definition KV_lookup (w : World) (key : string) : option string :=
  match KV w !! key with
  | Some (v, expiry) => if live (now w) expiry then Some v else None
  | None => None
  end.

(** [env.KV.get(key)]: the value, or [null]. *)
Definition KV_get (key : string) : M (option string) :=
  emit (KvGet key) ;;
  fun w => (Return (KV_lookup w key), w).

(** [env.KV.put(key, value, { expirationTtl })], the TTL in seconds. *)
Definition KV_put (key value : string) (expirationTtl : Z) : M unit :=
  emit (KvPut key value expirationTtl) ;;
  fun w =>
    (Return tt, set_KV (<[key := (value, Some (now w + 1000 * expirationTtl))]> (KV w)) w).

(** The stored response that the edge cache would serve for [req] right
    now: one that has not expired. *)
Definition edge_lookup (w : World) (req : string) : option Response :=
  match edge w !! req with
  | Some (r, expiry) => if now w <? expiry then Some r else None
  | None => None
  end.

(** [caches.default.match(req)]: a new guarded object for a stored response
    that has not expired, [undefined] otherwise; rejects when the backend
    fails. *)
Definition caches_default_match (req : string) : M (option loc) :=
  emit (CacheMatch req) ;;
  fun w =>
    match edge_fault w with
    | Some msg => (Throw (CacheError msg), w)
    | None =>
        match edge_lookup w req with
        | Some r => bind (alloc (incoming r)) (fun l => ret (Some l)) w
        | None => (Return None, w)
        end
    end.

(** [caches.default.put(req, res)] starts the operation and returns its
    promise: the cache takes the body stream of [res] to read it, or the
    promise is rejected when that body has been used already. *)
Definition caches_default_put (req : string) (res : loc) : M Task :=
  emit (CachePut req res) ;;
  do r <- deref res;
  if bodyUsed r then ret (RejectedTask "Body has already been used.")
  else
    consume res ;;
    ret (PutTask req res).

(** [caches.default.delete(req)] starts the operation and returns its
    promise. *)

Definition caches_default_delete (req : string) : M Task :=
  emit (CacheDelete req) ;;
  ret (DeleteTask req).

(** [ctx.waitUntil(promise)] *)
Definition waitUntil (p : Task) : M unit :=
  fun w => (Return tt, set_background (background w ++ [p]) w).

(** JavaScript truthiness of a [string | null | undefined] value: the value
    when it is a non-empty string. *)
Definition truthy (v : option string) : option string :=
  match v with
  | Some s => if decide (s = "") then None else Some s
  | None => None
  end.

Definition falsy (v : option string) : bool :=
  match truthy v with
  | Some _ => false
  | None => true
  end.

(** [n.toString()] of a number that is an integer or [NaN]. *)
Definition Number_toString (n : option Z) : string :=
  match n with
  | Some z => pretty z
  | None => "NaN"
  end.

Section Worker.
Context {P : Platform}.

(** [res.json()]: reads the body, then parses it. *)
Definition Response_json (l : loc) : M (gmap string string) :=
  do r <- deref l;
  if bodyUsed r then throw (TypeError "Body has already been used.")
  else
    consume l ;;
    match JSON_parse (body r) with
    | Some j => ret j
    | None => throw (SyntaxError "Unexpected token in JSON")
    end.

(** What the platform does, later, with one promise given to [waitUntil]:
    a simple cache that keeps what it was given, under the URL as written,
    for as long as [cache_lifetime] says. *)
Definition run_task (w : World) (t : Task) : World :=
  match t with
  | PutTask req l =>
      match heap w !! l with
      | Some r =>
          match cache_lifetime r with
          | Some s => set_edge (<[req := (r, now w + 1000 * s)]> (edge w)) w
          | None => w
          end
      | None => w
      end
  | DeleteTask req => set_edge (delete req (edge w)) w
  | RejectedTask _ => w
  end.

(** All pending promises settle, here in the order in which they were
    handed over; the platform promises no order. *)
Definition settle (w : World) : World :=
  set_background [] (foldl run_task w (background w)).

(** ** [src/cache.ts] *)

(** [setDebugHeaders]: milliseconds are integers that a double holds
    exactly, so [Math.floor(x / 1000)] is the floor division of [Z]. *)
Definition setDebugHeaders (res : loc) : M unit :=
  do date <- Response_headers_get res "date";
  match truthy date with
  | Some d =>
      do t <- Date_now;
      let age := (fun T => (t - T) `div` 1000) <$> Date_getTime d in
      Response_headers_set res X_PROXY_CACHE_AGE_KEY (Number_toString age)
  | None => ret tt
  end ;;
  Response_headers_set res X_PROXY_CACHE_MAXAGE_KEY (Number_toString (Some CACHE_MAX_AGE)).

(** [getCache] *)
Definition getCache (req : string) : M (option loc) :=
  do cache <- caches_default_match req;
  match cache with
  | None => ret None
  | Some cache =>
      do res <- new_Response cache;
      Response_headers_delete res "Cache-Control" ;;
      setDebugHeaders res ;;
      ret (Some res)
  end.

(** [putCache] *)
Definition putCache (req : string) (res : loc) : M unit :=
  do clone <- Response_clone res;
  do newRes <- new_Response clone;
  Response_headers_set newRes "Cache-Control"
    ("public, s-maxage=" +:+ Number_toString (Some CACHE_MAX_AGE)) ;;
  do p <- caches_default_put req newRes;
  waitUntil p.

(** [deleteCache] *)
Definition deleteCache (req : string) : M unit :=
  do p <- caches_default_delete req;
  waitUntil p.

(** ** [src/index.ts] *)

(** [#checkConfig] *)
Definition checkConfig (env : Env) : M unit :=
  if falsy (JQUANTS_API_EMAIL env) || falsy (JQUANTS_API_PW env)
  then throw (JsError "JQUANTS_API_EMAIL or JQUANTS_API_PW is not set")
  else ret tt.

Definition auth_user_request (env : Env) : Request :=
  let data := [("mailaddress", JQUANTS_API_EMAIL env); ("password", JQUANTS_API_PW env)] in
  mkRequest "POST" (API_BASE_URL +:+ "/v1/token/auth_user")
            (headers_set ∅ "Content-Type" "application/json")
            (Some (JSON_stringify data)).

(** [#getNewRefreshToken] *)
Definition getNewRefreshToken (env : Env) : M string :=
  do res <- fetch (auth_user_request env);
  do json <- Response_json res;
  match truthy (json !! "refreshToken") with
  | None => throw (JsError "JQuants refresh token not found in response")
  | Some refreshToken => ret refreshToken
  end.

Definition auth_refresh_request (refreshToken : string) : Request :=
  mkRequest "POST"
            (API_BASE_URL +:+ "/v1/token/auth_refresh?refreshtoken=" +:+ refreshToken)
            ∅ None.

(** [#getNewIdToken] *)
Definition getNewIdToken (refreshToken : string) : M string :=
  do res <- fetch (auth_refresh_request refreshToken);
  do json <- Response_json res;
  match truthy (json !! "idToken") with
  | None => throw (JsError "JQuants ID token not found in response")
  | Some idToken => ret idToken
  end.

(** [#getRefreshToken] *)
Definition getRefreshToken (env : Env) : M string :=
  do cachedToken <- KV_get REFRESH_TOKEN_KEY;
  match truthy cachedToken with
  | Some cachedToken =>
      console_debug "Cached refresh token found" ;;
      ret cachedToken
  | None =>
      console_debug "Cached token not found, fetching new refresh token" ;;
      do newToken <- getNewRefreshToken env;
      KV_put REFRESH_TOKEN_KEY newToken REFRESH_TOKEN_TTL ;;
      ret newToken
  end.

(** [#getToken] *)
Definition getToken (env : Env) : M string :=
  do refreshToken <- getRefreshToken env;
  do cachedToken <- KV_get ID_TOKEN_KEY;
  match truthy cachedToken with
  | Some cachedToken =>
      console_debug "Cached ID token found" ;;
      ret cachedToken
  | None =>
      console_debug "Cached token not found, fetching new ID token" ;;
      do newToken <- getNewIdToken refreshToken;
      KV_put ID_TOKEN_KEY newToken ID_TOKEN_TTL ;;
      ret newToken
  end.

Definition bearer_request (url token : string) : Request :=
  mkRequest "GET" url (headers_set ∅ "Authorization" ("Bearer " +:+ token)) None.

(** [#fetchWithCache] *)
Definition fetchWithCache (env : Env) (url : string) : M loc :=
  do res <- getCache url;
  match res with
  | Some res => ret res
  | None =>
      do token <- getToken env;
      do res <- fetch (bearer_request url token);
      do isok <- Response_ok res;
      (if isok then putCache url res else ret tt) ;;
      ret res
  end.

(** [get]: the one entry point of the Worker. *)
Definition get (env : Env) (endpoint : string) : M loc :=
  checkConfig env ;;
  fetchWithCache env (API_BASE_URL +:+ endpoint).

(** ** Worlds and values that the statements below speak about

    Each of these is the result of a run of the code above, written as a
    value; the run lemmas prove that the code produces it. *)

(** The header list after the three steps of [getCache]: delete
    [Cache-Control], then the two steps of [setDebugHeaders], read at
    instant [t]. *)
Definition served_headers (t : Z) (h : gmap string string) : gmap string string :=
  let h1 := headers_delete h "Cache-Control" in
  let h2 :=
    match truthy (headers_get h1 "date") with
    | Some d =>
        headers_set h1 X_PROXY_CACHE_AGE_KEY
          (Number_toString ((fun T => (t - T) `div` 1000) <$> Date_getTime d))
    | None => h1
    end in
  headers_set h2 X_PROXY_CACHE_MAXAGE_KEY (Number_toString (Some CACHE_MAX_AGE)).

(** [w] with the events [es] logged. *)
Definition logged (es : list Event) (w : World) : World :=
  set_log (log w ++ es) w.

(** [w] with the objects [rs] created. *)
Definition allocated (rs : list Response) (w : World) : World :=
  set_heap (heap w ++ rs) w.

(** [w] where the object [l] holds a body stream of its own. *)
Definition own_body (l : loc) (w : World) : World :=
  set_body_stream (delete l (body_stream w)) w.

(** [w] where the object [l] holds the body stream [s]. *)
Definition body_on (l : loc) (s : nat) (w : World) : World :=
  set_body_stream (<[l := s]> (body_stream w)) w.

(** Both credentials are truthy: [#checkConfig] lets the call through. *)
Definition configured (env : Env) : Prop :=
  (∃ e, JQUANTS_API_EMAIL env = Some e ∧ e ≠ "") ∧
  (∃ p, JQUANTS_API_PW env = Some p ∧ p ≠ "").

(** The object that [putCache] builds from [r] and hands to the cache. *)
Definition stored_copy (r : Response) : Response :=
  mkResponse (status r) (statusText r)
    (headers_set (headers r) "Cache-Control"
       ("public, s-maxage=" +:+ Number_toString (Some CACHE_MAX_AGE)))
    (body r) false false.

(** The token that an acquisition call reads out of the answer to its
    request: the named field of the JSON body, when it is a non-empty
    string. *)
Definition token_field (field : string) (answer : FetchResult) : option string :=
  match answer with
  | NetOk r =>
      match JSON_parse (body r) with
      | Some json => truthy (json !! field)
      | None => None
      end
  | NetFail _ => None
  end.

(** The world after [fetch(req)] and, when there is a response, after
    reading its body. *)
Definition after_fetch (req : Request) (w : World) : World :=
  let w' := set_fetches (S (fetches w)) (logged [Fetch req] w) in
  match upstream w (fetches w) req with
  | NetOk r =>
      own_body (length (heap w)) (allocated [with_bodyUsed true (incoming r)] w')
  | NetFail _ => w'
  end.

(** [w] after [env.KV.put(key, value, { expirationTtl: ttl })]. *)
Definition kv_stored (key value : string) (ttl : Z) (w : World) : World :=
  set_KV (<[key := (value, Some (now w + 1000 * ttl))]> (KV w))
         (logged [KvPut key value ttl] w).

(** What the two token getters log before any acquisition. *)
Definition refresh_hit_log : list Event :=
  [KvGet REFRESH_TOKEN_KEY; ConsoleDebug "Cached refresh token found"].
Definition refresh_miss_log : list Event :=
  [KvGet REFRESH_TOKEN_KEY;
   ConsoleDebug "Cached token not found, fetching new refresh token"].
Definition id_hit_log : list Event :=
  [KvGet ID_TOKEN_KEY; ConsoleDebug "Cached ID token found"].
Definition id_miss_log : list Event :=
  [KvGet ID_TOKEN_KEY; ConsoleDebug "Cached token not found, fetching new ID token"].

(** Token work leaves the clock, the edge cache, the pending promises and
    the upstream alone. *)
Definition token_frame (w w' : World) : Prop :=
  now w' = now w ∧ edge w' = edge w ∧ edge_fault w' = edge_fault w ∧
  background w' = background w ∧ upstream w' = upstream w.

(** The world after the upstream call of [#fetchWithCache] and the
    [putCache] that follows a successful answer: the response, its clone
    and the copy built on the clone, whose shared body the cache has
    taken. *)
Definition after_upstream (url : string) (req : Request) (w : World) : World :=
  let w' := set_fetches (S (fetches w)) (logged [Fetch req] w) in
  match upstream w (fetches w) req with
  | NetFail _ => w'
  | NetOk r =>
      if ok r then
        set_background (background w ++ [PutTask url (S (S (length (heap w))))])
          (logged [CachePut url (S (S (length (heap w))))]
             (body_on (S (S (length (heap w)))) (S (length (heap w)))
                (own_body (S (length (heap w)))
                   (own_body (length (heap w))
                      (allocated [incoming r; with_bodyUsed true (incoming r);
                                  with_bodyUsed true (stored_copy (incoming r))]
                         w')))))
      else own_body (length (heap w)) (allocated [incoming r] w')
  end.

(** Every entry of the KV namespace of [w'] was already there in [w] or
    holds a non-empty value. *)
Definition stores_no_empty (w w' : World) : Prop :=
  ∀ key v expiry, KV w' !! key = Some (v, expiry) →
    KV w !! key = Some (v, expiry) ∨ v ≠ "".

(** The effects that resolving the tokens may have: reads and writes of the
    two token keys (a write never of the empty string), console output,
    the login request, and a refresh request that carries a non-empty
    refresh token. *)
Definition token_event (login : Request) (refresh : string -> Request)
    (e : Event) : Prop :=
  match e with
  | KvGet key => key = REFRESH_TOKEN_KEY ∨ key = ID_TOKEN_KEY
  | KvPut key value _ => (key = REFRESH_TOKEN_KEY ∨ key = ID_TOKEN_KEY) ∧ value ≠ ""
  | ConsoleDebug _ => True
  | Fetch req => req = login ∨ ∃ rt, rt ≠ "" ∧ req = refresh rt
  | CacheMatch _ | CachePut _ _ | CacheDelete _ => False
  end.

End Worker.

(** ** A concrete platform and concrete worlds, for running the model *)

(** Dates, JSON bodies and cache policy of the examples. *)
Definition sample_Date_getTime (s : string) : option Z :=
  if decide (s = "Thu, 01 Jan 2026 00:00:00 GMT") then Some 1767225600000
  else if decide (s = "Thu, 01 Jan 2026 00:05:00 GMT") then Some 1767225900000
  else None.

Definition sample_JSON_parse (s : string) : option (gmap string string) :=
  if decide (s = "{'refreshToken':'rt-1'}") then Some {["refreshToken" := "rt-1"]}
  else if decide (s = "{'idToken':'id-1'}") then Some {["idToken" := "id-1"]}
  else if decide (s = "{'idToken':''}") then Some {["idToken" := ""]}
  else if decide (s = "{'message':'wrong password'}") then Some {["message" := "wrong password"]}
  else None.

Definition sample_JSON_stringify (fields : list (string * option string)) : string :=
  "{" +:+
  String.concat ","
    (omap (fun kv => (fun v => "'" +:+ kv.1 +:+ "':'" +:+ v +:+ "'") <$> kv.2) fields)
  +:+ "}".

Definition sample_cache_lifetime (r : Response) : option Z :=
  if decide (headers r !! "cache-control" = Some "public, s-maxage=600") then Some 600
  else None.

Definition sample_platform : Platform :=
  {| Date_getTime := sample_Date_getTime;
     JSON_parse := sample_JSON_parse;
     JSON_stringify := sample_JSON_stringify;
     cache_lifetime := sample_cache_lifetime |}.

Definition sample_env : Env := mkEnv (Some "me@example.com") (Some "secret").

Definition json_reply (code : Z) (text : string) : FetchResult :=
  NetOk (mkResponse code "" {["content-type" := "application/json"]} text false true).

(** An upstream that logs in, refreshes and serves a statement. *)
Definition sample_upstream (hdrs : gmap string string) (code : Z)
    (n : nat) (req : Request) : FetchResult :=
  if decide (req_url req = "https://api.jquants.com/v1/token/auth_user")
  then json_reply 200 "{'refreshToken':'rt-1'}"
  else if decide (req_url req = "https://api.jquants.com/v1/token/auth_refresh?refreshtoken=rt-1")
  then json_reply 200 "{'idToken':'id-1'}"
  else NetOk (mkResponse code "" hdrs "{'statements':[]}" false true).

(** An upstream whose login endpoint rejects the credentials. *)
Definition rejecting_upstream (n : nat) (req : Request) : FetchResult :=
  json_reply 400 "{'message':'wrong password'}".

Definition empty_world (t : Z) (up : nat -> Request -> FetchResult) : World :=
  mkWorld t [] ∅ None ∅ up 0 [] [] ∅.

Definition sample_date_headers : gmap string string :=
  {["date" := "Thu, 01 Jan 2026 00:00:00 GMT"; "content-type" := "application/json"]}.

Definition sample_url : string := "https://api.jquants.com/v1/x".

Definition dated_entry : Response :=
  mkResponse 200 ""
    (<["cache-control" := "public, s-maxage=600"]> sample_date_headers)
    "{'statements':[]}" false false.

Definition undated_entry : Response :=
  mkResponse 200 ""
    {["cache-control" := "public, s-maxage=600"; "content-type" := "application/json"]}
    "{'statements':[]}" false false.

(** A warm edge cache, read 125.5 seconds after the date of [dated_entry]. *)
Definition warm_world (entry : Response) : World :=
  mkWorld 1767225725500 [] {[sample_url := (entry, 1767226200000)]} None ∅
          (sample_upstream sample_date_headers 200) 0 [] [] ∅.

(** An edge cache whose backend is failing. *)
Definition faulty_world : World :=
  mkWorld 1767225725500 [] ∅ (Some "cache backend unavailable") ∅
          (sample_upstream sample_date_headers 200) 0 [] [] ∅.

(** The KV namespace holds an ID token and no refresh token. *)
Definition cached_id_world (up : nat -> Request -> FetchResult) : World :=
  mkWorld 1767225725500 [] ∅ None
          {["id_token" := ("id-cached", Some 1767300000000)]} up 0 [] [] ∅.

Definition no_store_headers : gmap string string :=
  {["cache-control" := "no-store"; "content-type" := "application/json"]}.

(** Nothing cached and nothing stored, at the date of [sample_date_headers]. *)
Definition cold_world (hdrs : gmap string string) (code : Z) : World :=
  empty_world 1767225600000 (sample_upstream hdrs code).

(** An upstream that logs in but answers the refresh with an empty token. *)
Definition empty_id_upstream (n : nat) (req : Request) : FetchResult :=
  if decide (req_url req = "https://api.jquants.com/v1/token/auth_user")
  then json_reply 200 "{'refreshToken':'rt-1'}"
  else json_reply 200 "{'idToken':''}".

(** The KV namespace holds empty strings under both keys. *)
Definition empty_token_world : World :=
  mkWorld 1767225725500 [] ∅ None
          {["refresh_token" := ("", None); "id_token" := ("", None)]}
          (sample_upstream sample_date_headers 200) 0 [] [] ∅.

Definition unconfigured_env : Env := mkEnv None (Some "secret").

Definition server_error : Response :=
  mkResponse 500 "" sample_date_headers "{'statements':[]}" false true.

(** A response as the upstream sends it, marked as not to be stored. *)
Definition no_store_response : Response :=
  incoming (mkResponse 200 "" no_store_headers "{'statements':[]}" false true).

(** A world whose only object is that response, just received. *)
Definition one_response_world : World :=
  set_heap [no_store_response] (cold_world no_store_headers 200).

(** The KV namespace holds both tokens. *)
Definition warm_token_world : World :=
  mkWorld 1767225725500 [] ∅ None
          {["refresh_token" := ("rt-0", Some 1767700000000);
            "id_token" := ("id-0", Some 1767300000000)]}
          (sample_upstream sample_date_headers 200) 0 [] [] ∅.


(** An upstream that logs in and refreshes but cannot be reached for data. *)
Definition unreachable_data_upstream (n : nat) (req : Request) : FetchResult :=
  if decide (req_url req = "https://api.jquants.com/v1/token/auth_user")
  then json_reply 200 "{'refreshToken':'rt-1'}"
  else if decide (req_url req = "https://api.jquants.com/v1/token/auth_refresh?refreshtoken=rt-1")
  then json_reply 200 "{'idToken':'id-1'}"
  else NetFail "connection reset".

(** A stored entry whose [date] header is not a date. *)
Definition misdated_entry : Response :=
  mkResponse 200 ""
    {["cache-control" := "public, s-maxage=600"; "date" := "yesterday"]}
    "{'statements':[]}" false false.

(** * Properties *)

Section Proofs.
Context {P : Platform}.

(** ** Lists used as the heap *)

Lemma lookup_snoc {A} (l : list A) (x : A) : (l ++ [x]) !! length l = Some x.
Proof. by apply list_lookup_middle. Qed.

Lemma insert_snoc {A} (l : list A) (x y : A) : <[length l := y]> (l ++ [x]) = l ++ [y].
Proof. rewrite insert_app_r_alt; [|done]. by rewrite Nat.sub_diag. Qed.

Lemma lookup_snoc2 {A} (l : list A) (x y : A) :
  (l ++ [x; y]) !! S (length l) = Some y.
Proof.
  change (l ++ [x; y]) with (l ++ [x] ++ [y]). rewrite app_assoc.
  apply list_lookup_middle. rewrite length_app. cbn. lia.
Qed.

Lemma lookup_snoc3 {A} (l : list A) (x y z : A) :
  (l ++ [x; y; z]) !! S (S (length l)) = Some z.
Proof.
  change (l ++ [x; y; z]) with (l ++ [x; y] ++ [z]). rewrite app_assoc.
  apply list_lookup_middle. rewrite length_app. cbn. lia.
Qed.

(** ** Body streams *)

Lemma stream_le (m : gmap loc nat) (l : loc) : (stream m l ≤ l)%nat.
Proof.
  unfold stream. destruct (m !! l) as [s|]; [|lia]. case_decide; lia.
Qed.

Lemma stream_delete_eq (m : gmap loc nat) (l : loc) : stream (delete l m) l = l.
Proof. unfold stream. by rewrite lookup_delete_eq. Qed.

Lemma stream_insert_eq (m : gmap loc nat) (l : loc) (s : nat) :
  (s < l)%nat → stream (<[l := s]> m) l = s.
Proof. intros H. unfold stream. rewrite lookup_insert_eq. by case_decide. Qed.

Lemma mark_used_old (m : gmap loc nat) (l : loc) (h : list Response) :
  (length h ≤ stream m l)%nat → mark_used m l h = h.
Proof.
  intros Hl. unfold mark_used. apply list_eq. intros i.
  rewrite list_lookup_imap. destruct (h !! i) as [r|] eqn:E; [|done].
  cbn. apply lookup_lt_Some in E. pose proof (stream_le m i).
  case_decide; [lia|done].
Qed.

Lemma mark_used_app (m : gmap loc nat) (l : loc) (h1 h2 : list Response) :
  mark_used m l (h1 ++ h2) =
  mark_used m l h1 ++
  imap (fun i r => if decide (stream m (length h1 + i)%nat = stream m l)
                   then with_bodyUsed true r else r) h2.
Proof. unfold mark_used. by rewrite imap_app. Qed.

(** Reading the body of a newly created object touches that object only. *)
Lemma mark_used_last (m : gmap loc nat) (h : list Response) (r : Response) :
  mark_used (delete (length h) m) (length h) (h ++ [r]) =
  h ++ [with_bodyUsed true r].
Proof.
  rewrite mark_used_app.
  rewrite mark_used_old by (rewrite stream_delete_eq; lia).
  cbn [imap]. rewrite Nat.add_0_r. by rewrite decide_True.
Qed.

(** Reading the body of an object built on a newly created one uses up the
    body of both, and of no other. *)
Lemma mark_used_shared (m : gmap loc nat) (h : list Response) (a b : Response) :
  mark_used (<[length (h ++ [a]) := length h]> (delete (length h) m))
            (length (h ++ [a])) ((h ++ [a]) ++ [b]) =
  (h ++ [with_bodyUsed true a]) ++ [with_bodyUsed true b].
Proof.
  assert (length (h ++ [a]) = S (length h)) as Hlen
    by (rewrite length_app; cbn; lia).
  set (m' := <[length (h ++ [a]) := length h]> (delete (length h) m)).
  assert (stream m' (length (h ++ [a])) = length h) as Hs.
  { unfold m'. apply stream_insert_eq. lia. }
  assert (stream m' (length h) = length h) as Hs'.
  { unfold m', stream. rewrite lookup_insert_ne by lia.
    by rewrite lookup_delete_eq. }
  rewrite !mark_used_app.
  rewrite mark_used_old by (rewrite Hs; lia).
  cbn [imap]. rewrite !Nat.add_0_r, Hs, Hs'. by rewrite !decide_True.
Qed.

(** ** Truthiness *)

Lemma truthy_Some v s : truthy v = Some s ↔ v = Some s ∧ s ≠ "".
Proof.
  unfold truthy. destruct v as [s'|]; [|intuition congruence].
  destruct (decide (s' = "")); intuition congruence.
Qed.

Lemma truthy_None v : truthy v = None ↔ v = None ∨ v = Some "".
Proof.
  unfold truthy. destruct v as [s'|]; [|intuition congruence].
  destruct (decide (s' = "")); intuition congruence.
Qed.

Lemma falsy_true v : falsy v = true ↔ v = None ∨ v = Some "".
Proof. unfold falsy. rewrite <- truthy_None. destruct (truthy v); intuition congruence. Qed.

Lemma falsy_false v : falsy v = false ↔ ∃ s, v = Some s ∧ s ≠ "".
Proof.
  unfold falsy. destruct (truthy v) as [s|] eqn:E.
  - apply truthy_Some in E. split; [eauto | done].
  - apply truthy_None in E. split; [done|]. intros (s & -> & Hs).
    destruct E as [E|E]; congruence.
Qed.

(** ** Running the monad

    [monad] unfolds the code down to functions on worlds, [heap_simpl]
    reads and writes the heap and projects the fields of updated worlds,
    [world_eq] compares two worlds field by field, and [prims] unfolds the
    primitives only, leaving the functions of the Worker folded. *)

Lemma KV_lookup_set_log (l : list Event) (w : World) (key : string) :
  KV_lookup (set_log l w) key = KV_lookup w key.
Proof. reflexivity. Qed.

Lemma fetches_set_log (evs : list Event) (w : World) :
  fetches (set_log evs w) = fetches w.
Proof. reflexivity. Qed.

Lemma world_ext (w1 w2 : World) :
  now w1 = now w2 → heap w1 = heap w2 → edge w1 = edge w2 →
  edge_fault w1 = edge_fault w2 → KV w1 = KV w2 → upstream w1 = upstream w2 →
  fetches w1 = fetches w2 → background w1 = background w2 → log w1 = log w2 →
  body_stream w1 = body_stream w2 → w1 = w2.
Proof. destruct w1, w2. cbn. by intros -> -> -> -> -> -> -> -> -> ->. Qed.

Lemma run_ext {A} (o1 o2 : Outcome A) (w1 w2 : World) :
  o1 = o2 → w1 = w2 → (o1, w1) = (o2, w2).
Proof. by intros -> ->. Qed.

Ltac monad :=
  unfold get, fetchWithCache, getCache, putCache, deleteCache, setDebugHeaders,
    checkConfig, caches_default_match, caches_default_put, caches_default_delete,
    waitUntil, new_Response, Response_clone, Response_headers_get,
    Response_headers_set, Response_headers_delete, Response_ok, Response_json,
    KV_get, KV_put, fetch, console_debug, Date_now, emit, alloc, alloc_on,
    consume, deref, store, bind, ret, throw.

Ltac heap_simpl :=
  repeat first
    [ rewrite lookup_snoc
    | rewrite insert_snoc
    | rewrite stream_delete_eq
    | rewrite mark_used_last
    | rewrite mark_used_shared
    | progress unfold own_body, body_on, stream_of
    | progress cbn [heap set_heap set_log set_now set_edge set_KV set_fetches
                    set_background set_body_stream now edge edge_fault KV
                    upstream fetches background log body_stream immutable
                    bodyUsed headers status statusText body with_headers
                    with_bodyUsed incoming fst snd] ].

Ltac world_eq :=
  repeat match goal with
         | |- (_, _) = (_, _) => apply run_ext
         | |- @eq World _ _ => apply world_ext
         end;
  unfold allocated, logged, own_body, body_on, stream_of;
  cbn [heap set_heap set_log set_now set_edge set_KV set_fetches
       set_background set_body_stream now edge edge_fault KV upstream
       fetches background log body_stream];
  rewrite ?stream_delete_eq;
  rewrite <- ?app_assoc; cbn [app];
  rewrite ?length_app; cbn [length]; rewrite ?Nat.add_1_r;
  try reflexivity.

Ltac prims :=
  unfold KV_get, KV_put, console_debug, emit, bind, ret, throw;
  rewrite ?KV_lookup_set_log.

(** ** The configuration check *)

(** C5.  When the account identifier ([JQUANTS_API_EMAIL]) or the secret
    ([JQUANTS_API_PW]) is missing from the configuration (undefined, or the
    empty string), [get] fails at once with the configuration error and the
    world is exactly what it was: no cache lookup, no access to the KV
    namespace, no upstream call, nothing logged. *)
Theorem get_missing_config (env : Env) (endpoint : string) (w : World) :
  (JQUANTS_API_EMAIL env = None ∨ JQUANTS_API_EMAIL env = Some "" ∨
   JQUANTS_API_PW env = None ∨ JQUANTS_API_PW env = Some "") →
  get env endpoint w =
    (Throw (JsError "JQUANTS_API_EMAIL or JQUANTS_API_PW is not set"), w).
Proof.
  intros H.
  assert (falsy (JQUANTS_API_EMAIL env) || falsy (JQUANTS_API_PW env) = true) as Hf.
  { apply orb_true_iff. rewrite !falsy_true. tauto. }
  unfold get, checkConfig, bind. by rewrite Hf.
Qed.

Lemma checkConfig_ok (env : Env) (w : World) :
  falsy (JQUANTS_API_EMAIL env) = false →
  falsy (JQUANTS_API_PW env) = false →
  checkConfig env w = (Return tt, w).
Proof. intros H1 H2. unfold checkConfig. by rewrite H1, H2. Qed.

(** ** The response cache: [getCache] *)

Lemma getCache_fault (url msg : string) (w : World) :
  edge_fault w = Some msg →
  getCache url w = (Throw (CacheError msg), set_log (log w ++ [CacheMatch url]) w).
Proof. intros H. monad. heap_simpl. by rewrite H. Qed.

Lemma getCache_miss (url : string) (w : World) :
  edge_fault w = None → edge_lookup w url = None →
  getCache url w = (Return None, set_log (log w ++ [CacheMatch url]) w).
Proof.
  intros H1 H2. unfold edge_lookup in H2. monad. unfold edge_lookup. heap_simpl. by rewrite H1, H2.
Qed.

Lemma getCache_hit (url : string) (w : World) (entry : Response) :
  edge_fault w = None → edge_lookup w url = Some entry →
  getCache url w =
    (Return (Some (S (length (heap w)))),
     body_on (S (length (heap w))) (length (heap w))
       (own_body (length (heap w))
          (allocated [incoming entry;
                      mkResponse (status entry) (statusText entry)
                        (served_headers (now w) (headers entry))
                        (body entry) false false]
             (logged [CacheMatch url] w)))).
Proof.
  intros H1 H2. unfold edge_lookup in H2. monad. unfold edge_lookup.
  heap_simpl. rewrite H1, H2. heap_simpl.
  unfold served_headers.
  destruct (truthy (headers_get (headers_delete (headers entry) "Cache-Control") "date"));
    heap_simpl; world_eq.
Qed.

Lemma lower_Cache_Control : lower "Cache-Control" = "cache-control".
Proof. reflexivity. Qed.
Lemma lower_date : lower "date" = "date".
Proof. reflexivity. Qed.
Lemma lower_age : lower X_PROXY_CACHE_AGE_KEY = "x-proxy-cache-age".
Proof. reflexivity. Qed.
Lemma lower_maxage : lower X_PROXY_CACHE_MAXAGE_KEY = "x-proxy-cache-maxage".
Proof. reflexivity. Qed.
Lemma CACHE_MAX_AGE_toString : Number_toString (Some CACHE_MAX_AGE) = "600".
Proof. reflexivity. Qed.

Ltac headers_norm :=
  unfold served_headers, headers_get, headers_set, headers_delete in *;
  rewrite ?lower_Cache_Control, ?lower_date, ?lower_age, ?lower_maxage,
    ?CACHE_MAX_AGE_toString in *.

Lemma served_headers_cache_control t (h : gmap string string) :
  served_headers t h !! "cache-control" = None.
Proof.
  headers_norm. rewrite lookup_insert_ne by done.
  destruct (truthy _); [rewrite lookup_insert_ne by done|]; apply lookup_delete_eq.
Qed.

Lemma served_headers_maxage t (h : gmap string string) :
  served_headers t h !! "x-proxy-cache-maxage" = Some "600".
Proof. headers_norm. apply lookup_insert_eq. Qed.

Lemma served_headers_age_date t (h : gmap string string) d :
  h !! "date" = Some d → d ≠ "" →
  served_headers t h !! "x-proxy-cache-age" =
    Some (Number_toString ((fun T => (t - T) `div` 1000) <$> Date_getTime d)).
Proof.
  intros Hd Hne. headers_norm. rewrite lookup_insert_ne by done.
  rewrite lookup_delete_ne by done. rewrite Hd.
  assert (truthy (Some d) = Some d) as -> by (apply truthy_Some; done).
  apply lookup_insert_eq.
Qed.

Lemma served_headers_age_nodate t (h : gmap string string) :
  truthy (h !! "date") = None →
  served_headers t h !! "x-proxy-cache-age" = h !! "x-proxy-cache-age".
Proof.
  intros Hd. headers_norm. rewrite lookup_insert_ne by done.
  rewrite lookup_delete_ne by done. rewrite Hd.
  by rewrite lookup_delete_ne.
Qed.

Lemma served_headers_other t (h : gmap string string) k :
  k ≠ "cache-control" → k ≠ "x-proxy-cache-age" → k ≠ "x-proxy-cache-maxage" →
  served_headers t h !! k = h !! k.
Proof.
  intros H1 H2 H3. headers_norm. rewrite lookup_insert_ne by done.
  destruct (truthy _); [rewrite lookup_insert_ne by done|];
    by rewrite lookup_delete_ne.
Qed.

Lemma edge_lookup_live (w : World) url entry expiry :
  edge w !! url = Some (entry, expiry) → now w < expiry →
  edge_lookup w url = Some entry.
Proof.
  intros H1 H2. unfold edge_lookup. rewrite H1.
  by rewrite (proj2 (Z.ltb_lt _ _) H2).
Qed.

Lemma get_configured env endpoint w :
  configured env → get env endpoint w = fetchWithCache env (API_BASE_URL +:+ endpoint) w.
Proof.
  intros [H1 H2]. unfold get, bind.
  rewrite checkConfig_ok; [done| by apply falsy_false..].
Qed.

(** C1, amended.  With the credentials configured, when the edge cache
    holds an entry for the URL that has not expired, [get] returns a new
    response with the status, body and headers of that entry, except that
    [Cache-Control] is removed, [x-proxy-cache-maxage] is set to the TTL
    constant, and [x-proxy-cache-age] is set whenever the entry carries a
    non-empty [date] header and is not set when it carries none: it is then
    whatever the entry had, so absent when the entry had none.  The only
    effect is the cache lookup: no upstream call is made and the KV
    namespace is left alone. *)
Theorem get_cache_hit (env : Env) (endpoint : string) (w : World)
    (entry : Response) (expiry : Z) :
  configured env →
  edge_fault w = None →
  edge w !! (API_BASE_URL +:+ endpoint) = Some (entry, expiry) →
  now w < expiry →
  ∃ (l : loc) (r : Response) (w' : World),
    get env endpoint w = (Return l, w') ∧
    heap w' !! l = Some r ∧
    status r = status entry ∧ statusText r = statusText entry ∧
    body r = body entry ∧
    headers r !! "cache-control" = None ∧
    headers r !! "x-proxy-cache-maxage" = Some (pretty CACHE_MAX_AGE) ∧
    (∀ d, headers entry !! "date" = Some d → d ≠ "" →
          is_Some (headers r !! "x-proxy-cache-age")) ∧
    (headers entry !! "date" = None ∨ headers entry !! "date" = Some "" →
          headers r !! "x-proxy-cache-age" =
          headers entry !! "x-proxy-cache-age") ∧
    (∀ k, k ≠ "cache-control" → k ≠ "x-proxy-cache-age" →
          k ≠ "x-proxy-cache-maxage" → headers r !! k = headers entry !! k) ∧
    log w' = log w ++ [CacheMatch (API_BASE_URL +:+ endpoint)] ∧
    fetches w' = fetches w ∧ KV w' = KV w ∧
    edge w' = edge w ∧ background w' = background w.
Proof.
  intros Hcfg Hf He Ht.
  rewrite get_configured by done. unfold fetchWithCache, bind.
  rewrite (getCache_hit _ _ entry) by eauto using edge_lookup_live.
  eexists _, _, _. split; [reflexivity|].
  split.
  { unfold allocated, logged. heap_simpl. apply lookup_snoc2. }
  cbn [status statusText body headers].
  repeat split; try done.
  - apply served_headers_cache_control.
  - apply served_headers_maxage.
  - intros d Hd Hne. erewrite served_headers_age_date by done. eauto.
  - intros Hd. apply served_headers_age_nodate. by apply truthy_None.
  - intros k. apply served_headers_other.
Qed.

(** C4, amended.  When the cache backend raises an error on read,
    [getCache] does not catch it: the error goes through [#fetchWithCache]
    and [get] to the caller, after the cache lookup and nothing else; no
    token work is done and no upstream call is made. *)
Theorem get_cache_backend_error (env : Env) (endpoint msg : string) (w : World) :
  configured env →
  edge_fault w = Some msg →
  getCache (API_BASE_URL +:+ endpoint) w =
    (Throw (CacheError msg),
     set_log (log w ++ [CacheMatch (API_BASE_URL +:+ endpoint)]) w) ∧
  get env endpoint w =
    (Throw (CacheError msg),
     set_log (log w ++ [CacheMatch (API_BASE_URL +:+ endpoint)]) w).
Proof.
  intros Hcfg Hf. split; [by apply getCache_fault|].
  rewrite get_configured by done. unfold fetchWithCache, bind.
  by rewrite (getCache_fault _ msg).
Qed.

(** C7.  On a cache hit the served response carries
    [x-proxy-cache-maxage: 600].  When the stored entry has a [date] header
    that reads as the instant [T], [x-proxy-cache-age] is
    [floor ((now - T) / 1000)]: read [d] seconds (and less than a second
    more) after [T], it is [d].  When the stored entry has no [date] header,
    [x-proxy-cache-age] is not set: it is whatever the entry had, so absent
    when the entry had none. *)
Theorem cache_hit_debug_headers (url : string) (w : World)
    (entry : Response) (expiry : Z) :
  edge_fault w = None →
  edge w !! url = Some (entry, expiry) →
  now w < expiry →
  ∃ (l : loc) (r : Response) (w' : World),
    getCache url w = (Return (Some l), w') ∧
    heap w' !! l = Some r ∧
    headers r !! X_PROXY_CACHE_MAXAGE_KEY = Some "600" ∧
    (∀ (date : string) (T : Z),
        headers entry !! "date" = Some date → date ≠ "" →
        Date_getTime date = Some T →
        headers r !! X_PROXY_CACHE_AGE_KEY = Some (pretty ((now w - T) `div` 1000)) ∧
        ∀ d ms : Z, now w = T + 1000 * d + ms → 0 ≤ ms < 1000 →
          headers r !! X_PROXY_CACHE_AGE_KEY = Some (pretty d)) ∧
    (headers entry !! "date" = None →
        headers r !! X_PROXY_CACHE_AGE_KEY = headers entry !! X_PROXY_CACHE_AGE_KEY).
Proof.
  intros Hf He Ht.
  rewrite (getCache_hit _ _ entry) by eauto using edge_lookup_live.
  eexists _, _, _. split; [reflexivity|].
  split; [unfold allocated, logged; heap_simpl; apply lookup_snoc2|].
  cbn [headers]. split; [apply served_headers_maxage|]. split.
  - intros date T Hd Hne HT.
    assert (served_headers (now w) (headers entry) !! X_PROXY_CACHE_AGE_KEY =
            Some (pretty ((now w - T) `div` 1000))) as Hage.
    { unfold X_PROXY_CACHE_AGE_KEY. erewrite served_headers_age_date by done.
      by rewrite HT. }
    split; [done|]. intros d ms Hnow Hms. rewrite Hage. do 2 f_equal.
    symmetry. apply (Z.div_unique_pos _ _ _ ms); lia.
  - intros Hd. apply served_headers_age_nodate. by rewrite Hd.
Qed.

(** ** The response cache: [putCache] *)

Lemma putCache_run (url : string) (l : loc) (w : World) (r : Response) :
  heap w !! l = Some r → bodyUsed r = false →
  putCache url l w =
    (Return tt,
     set_background (background w ++ [PutTask url (S (length (heap w)))])
       (logged [CachePut url (S (length (heap w)))]
          (body_on (S (length (heap w))) (length (heap w))
             (own_body (length (heap w))
                (allocated [with_bodyUsed true r;
                            with_bodyUsed true (stored_copy r)] w))))).
Proof.
  intros Hl Hb. monad. heap_simpl. rewrite Hl. heap_simpl. rewrite Hb.
  heap_simpl. rewrite Hb. heap_simpl. unfold stored_copy. world_eq.
Qed.

Lemma putCache_refused (url : string) (l : loc) (w : World) :
  (heap w !! l = None ∨ ∃ r, heap w !! l = Some r ∧ bodyUsed r = true) →
  ∃ e, putCache url l w = (Throw e, w).
Proof.
  intros [Hl|(r & Hl & Hb)]; monad; heap_simpl; rewrite Hl; heap_simpl;
    [|rewrite Hb]; eauto.
Qed.

(** C8.  [putCache] never touches the response it is given, nor any other
    existing object: its status, headers and body are as they were and its
    body can still be read.  When that response can be cloned (its body is
    unread), the promise handed to [waitUntil] stores another, new object
    that has the same status and body and the same headers except for
    [Cache-Control: public, s-maxage=600], and that holds another body
    stream than the response given: the one of the clone. *)
Theorem putCache_leaves_original (url : string) (l : loc) (w : World) (r : Response) :
  heap w !! l = Some r →
  ∃ (out : Outcome unit) (w' : World),
    putCache url l w = (out, w') ∧
    heap w' !! l = Some r ∧
    (∀ l' r', heap w !! l' = Some r' → heap w' !! l' = Some r') ∧
    (bodyUsed r = false →
       out = Return tt ∧
       ∃ (l2 : loc) (stored : Response),
         l2 ≠ l ∧ heap w !! l2 = None ∧
         background w' = background w ++ [PutTask url l2] ∧
         heap w' !! l2 = Some stored ∧
         headers stored =
           <["cache-control" := "public, s-maxage=600"]> (headers r) ∧
         status stored = status r ∧ statusText stored = statusText r ∧
         body stored = body r ∧
         stream_of w' l2 ≠ stream_of w' l).
Proof.
  intros Hl. destruct (bodyUsed r) eqn:Hb.
  - destruct (putCache_refused url l w) as [e He]; [eauto|].
    eexists _, _. split; [exact He|]. repeat split; done.
  - eexists _, _. split; [by apply putCache_run|].
    assert (∀ hs l' r', heap w !! l' = Some r' →
              (heap w ++ hs) !! l' = Some r') as Hold.
    { intros hs l' r' H'. by apply lookup_app_l_Some. }
    apply lookup_lt_Some in Hl as Hlt.
    unfold allocated, logged. heap_simpl.
    split; [by apply Hold|]. split; [intros l' r'; apply Hold|].
    intros _. split; [done|].
    exists (S (length (heap w))), (with_bodyUsed true (stored_copy r)).
    split; [lia|]. split; [apply lookup_ge_None; lia|].
    split; [done|]. split; [apply lookup_snoc2|].
    do 4 (split; [done|]).
    rewrite stream_insert_eq by lia.
    pose proof (stream_le (<[S (length (heap w)) := length (heap w)]>
                             (delete (length (heap w)) (body_stream w))) l).
    intros Heq. unfold loc in *. rewrite <- Heq in H. lia.
Qed.

(** ** The credential manager *)

Lemma token_field_Some field answer t :
  token_field field answer = Some t ↔
  ∃ r json, answer = NetOk r ∧ JSON_parse (body r) = Some json ∧
            json !! field = Some t ∧ t ≠ "".
Proof.
  unfold token_field. split.
  - destruct answer as [r|]; [|done]. destruct (JSON_parse (body r)) as [j|] eqn:E; [|done].
    intros H%truthy_Some. exists r, j. tauto.
  - intros (r & j & -> & -> & H1 & H2). by apply truthy_Some.
Qed.

Lemma getNewRefreshToken_ok (env : Env) (w : World) (t : string) :
  token_field "refreshToken" (upstream w (fetches w) (auth_user_request env)) = Some t →
  getNewRefreshToken env w = (Return t, after_fetch (auth_user_request env) w).
Proof.
  unfold token_field, after_fetch, getNewRefreshToken. monad. heap_simpl.
  destruct (upstream w _ _) as [r|]; [|done]. heap_simpl.
  destruct (JSON_parse (body r)); [|done]. intros ->. world_eq.
Qed.

Lemma getNewRefreshToken_fail (env : Env) (w : World) :
  token_field "refreshToken" (upstream w (fetches w) (auth_user_request env)) = None →
  ∃ e, getNewRefreshToken env w = (Throw e, after_fetch (auth_user_request env) w).
Proof.
  unfold token_field, after_fetch, getNewRefreshToken. monad. heap_simpl.
  destruct (upstream w _ _) as [r|]; [|eauto]. heap_simpl.
  destruct (JSON_parse (body r)); [intros ->|]; eexists; world_eq.
Qed.

Lemma getNewIdToken_ok (rt : string) (w : World) (t : string) :
  token_field "idToken" (upstream w (fetches w) (auth_refresh_request rt)) = Some t →
  getNewIdToken rt w = (Return t, after_fetch (auth_refresh_request rt) w).
Proof.
  unfold token_field, after_fetch, getNewIdToken. monad. heap_simpl.
  destruct (upstream w _ _) as [r|]; [|done]. heap_simpl.
  destruct (JSON_parse (body r)); [|done]. intros ->. world_eq.
Qed.

Lemma getNewIdToken_fail (rt : string) (w : World) :
  token_field "idToken" (upstream w (fetches w) (auth_refresh_request rt)) = None →
  ∃ e, getNewIdToken rt w = (Throw e, after_fetch (auth_refresh_request rt) w).
Proof.
  unfold token_field, after_fetch, getNewIdToken. monad. heap_simpl.
  destruct (upstream w _ _) as [r|]; [|eauto]. heap_simpl.
  destruct (JSON_parse (body r)); [intros ->|]; eexists; world_eq.
Qed.

Lemma getRefreshToken_hit (env : Env) (w : World) (t : string) :
  truthy (KV_lookup w REFRESH_TOKEN_KEY) = Some t →
  getRefreshToken env w = (Return t, logged refresh_hit_log w).
Proof.
  intros H. unfold getRefreshToken. monad. unfold KV_lookup in *. heap_simpl.
  rewrite H. world_eq.
Qed.

Lemma getRefreshToken_miss_ok (env : Env) (w : World) (t : string) :
  truthy (KV_lookup w REFRESH_TOKEN_KEY) = None →
  token_field "refreshToken" (upstream w (fetches w) (auth_user_request env)) = Some t →
  getRefreshToken env w =
    (Return t,
     kv_stored REFRESH_TOKEN_KEY t REFRESH_TOKEN_TTL
       (after_fetch (auth_user_request env) (logged refresh_miss_log w))).
Proof.
  intros H Ht. unfold getRefreshToken. prims. rewrite H.
  erewrite getNewRefreshToken_ok by exact Ht. unfold kv_stored. world_eq.
Qed.

Lemma getRefreshToken_miss_fail (env : Env) (w : World) :
  truthy (KV_lookup w REFRESH_TOKEN_KEY) = None →
  token_field "refreshToken" (upstream w (fetches w) (auth_user_request env)) = None →
  ∃ e, getRefreshToken env w =
         (Throw e, after_fetch (auth_user_request env) (logged refresh_miss_log w)).
Proof.
  intros H Ht. unfold getRefreshToken. prims. rewrite H.
  edestruct getNewRefreshToken_fail as [e ->]; [exact Ht|].
  eexists. world_eq.
Qed.

Lemma getToken_refresh_throws (env : Env) (w w1 : World) (e : Exn) :
  getRefreshToken env w = (Throw e, w1) → getToken env w = (Throw e, w1).
Proof. intros H. unfold getToken, bind. by rewrite H. Qed.

Lemma getToken_hit (env : Env) (w w1 : World) (rt t : string) :
  getRefreshToken env w = (Return rt, w1) →
  truthy (KV_lookup w1 ID_TOKEN_KEY) = Some t →
  getToken env w = (Return t, logged id_hit_log w1).
Proof.
  intros H Ht. unfold getToken. unfold bind at 1. rewrite H. prims.
  rewrite Ht. world_eq.
Qed.

Lemma getToken_miss_ok (env : Env) (w w1 : World) (rt t : string) :
  getRefreshToken env w = (Return rt, w1) →
  truthy (KV_lookup w1 ID_TOKEN_KEY) = None →
  token_field "idToken" (upstream w1 (fetches w1) (auth_refresh_request rt)) = Some t →
  getToken env w =
    (Return t,
     kv_stored ID_TOKEN_KEY t ID_TOKEN_TTL
       (after_fetch (auth_refresh_request rt) (logged id_miss_log w1))).
Proof.
  intros H Hk Ht. unfold getToken. unfold bind at 1. rewrite H. prims.
  rewrite Hk. erewrite getNewIdToken_ok by exact Ht. unfold kv_stored. world_eq.
Qed.

Lemma getToken_miss_fail (env : Env) (w w1 : World) (rt : string) :
  getRefreshToken env w = (Return rt, w1) →
  truthy (KV_lookup w1 ID_TOKEN_KEY) = None →
  token_field "idToken" (upstream w1 (fetches w1) (auth_refresh_request rt)) = None →
  ∃ e, getToken env w =
         (Throw e, after_fetch (auth_refresh_request rt) (logged id_miss_log w1)).
Proof.
  intros H Hk Ht. unfold getToken. unfold bind at 1. rewrite H. prims.
  rewrite Hk. edestruct getNewIdToken_fail as [e ->]; [exact Ht|].
  eexists. world_eq.
Qed.

Lemma token_frame_trans w1 w2 w3 :
  token_frame w1 w2 → token_frame w2 w3 → token_frame w1 w3.
Proof. unfold token_frame. intros (?&?&?&?&?) (?&?&?&?&?). repeat split; congruence. Qed.

Lemma token_frame_logged es w : token_frame w (logged es w).
Proof. by repeat split. Qed.

Lemma token_frame_after_fetch req w : token_frame w (after_fetch req w).
Proof. unfold after_fetch. destruct (upstream w _ _); by repeat split. Qed.

Lemma token_frame_kv_stored k v ttl w : token_frame w (kv_stored k v ttl w).
Proof. by repeat split. Qed.

Lemma KV_after_fetch req w : KV (after_fetch req w) = KV w.
Proof. unfold after_fetch. by destruct (upstream w _ _). Qed.

Lemma KV_lookup_after_fetch req w key :
  KV_lookup (after_fetch req w) key = KV_lookup w key.
Proof. unfold after_fetch, KV_lookup. by destruct (upstream w _ _). Qed.

Lemma KV_lookup_kv_stored_eq key v ttl w :
  0 < ttl → KV_lookup (kv_stored key v ttl w) key = Some v.
Proof.
  intros Httl. unfold KV_lookup, kv_stored. heap_simpl. rewrite lookup_insert_eq.
  unfold logged. heap_simpl. unfold live.
  by rewrite (proj2 (Z.ltb_lt _ _)) by lia.
Qed.

Lemma KV_lookup_kv_stored_ne key key' v ttl w :
  key ≠ key' → KV_lookup (kv_stored key v ttl w) key' = KV_lookup w key'.
Proof.
  intros Hne. unfold KV_lookup, kv_stored. heap_simpl.
  by rewrite lookup_insert_ne.
Qed.

Lemma token_field_nonempty field answer t :
  token_field field answer = Some t → t ≠ "".
Proof. intros (?&?&?&?&?&?)%token_field_Some. done. Qed.

Lemma REFRESH_TOKEN_TTL_pos : 0 < REFRESH_TOKEN_TTL.
Proof. done. Qed.
Lemma ID_TOKEN_TTL_pos : 0 < ID_TOKEN_TTL.
Proof. done. Qed.

Lemma getRefreshToken_cases (env : Env) (w : World) :
  (∃ t, truthy (KV_lookup w REFRESH_TOKEN_KEY) = Some t ∧
        getRefreshToken env w = (Return t, logged refresh_hit_log w)) ∨
  (∃ t, truthy (KV_lookup w REFRESH_TOKEN_KEY) = None ∧
        token_field "refreshToken"
          (upstream w (fetches w) (auth_user_request env)) = Some t ∧
        getRefreshToken env w =
          (Return t,
           kv_stored REFRESH_TOKEN_KEY t REFRESH_TOKEN_TTL
             (after_fetch (auth_user_request env) (logged refresh_miss_log w)))) ∨
  (∃ e, truthy (KV_lookup w REFRESH_TOKEN_KEY) = None ∧
        token_field "refreshToken"
          (upstream w (fetches w) (auth_user_request env)) = None ∧
        getRefreshToken env w =
          (Throw e, after_fetch (auth_user_request env) (logged refresh_miss_log w))).
Proof.
  destruct (truthy (KV_lookup w REFRESH_TOKEN_KEY)) as [t|] eqn:Hk.
  - left. eauto using getRefreshToken_hit.
  - right.
    destruct (token_field "refreshToken"
                (upstream w (fetches w) (auth_user_request env))) as [t|] eqn:Ht.
    + left. eauto using getRefreshToken_miss_ok.
    + right. destruct (getRefreshToken_miss_fail env w) as [e He]; eauto.
Qed.

Lemma getRefreshToken_Return (env : Env) (w w' : World) (t : string) :
  getRefreshToken env w = (Return t, w') →
  token_frame w w' ∧ t ≠ "" ∧ KV_lookup w' REFRESH_TOKEN_KEY = Some t ∧
  (∀ key, key ≠ REFRESH_TOKEN_KEY → KV_lookup w' key = KV_lookup w key).
Proof.
  intros H.
  destruct (getRefreshToken_cases env w)
    as [(t' & Hk & E)|[(t' & Hk & Ht & E)|(e & Hk & Ht & E)]];
    rewrite E in H; simplify_eq.
  - apply truthy_Some in Hk as [Hk Hne].
    split; [apply token_frame_logged|]. done.
  - split.
    { eapply token_frame_trans; [apply token_frame_logged|].
      eapply token_frame_trans; [apply token_frame_after_fetch|].
      apply token_frame_kv_stored. }
    split; [by eapply token_field_nonempty|].
    split; [apply KV_lookup_kv_stored_eq, REFRESH_TOKEN_TTL_pos|].
    intros key Hkey. rewrite KV_lookup_kv_stored_ne by done.
    by rewrite KV_lookup_after_fetch.
Qed.

Lemma getToken_cases (env : Env) (w : World) :
  (∃ e w1, getRefreshToken env w = (Throw e, w1) ∧
           getToken env w = (Throw e, w1)) ∨
  (∃ rt w1, getRefreshToken env w = (Return rt, w1) ∧
     ((∃ t, truthy (KV_lookup w1 ID_TOKEN_KEY) = Some t ∧
            getToken env w = (Return t, logged id_hit_log w1)) ∨
      (∃ t, truthy (KV_lookup w1 ID_TOKEN_KEY) = None ∧
            token_field "idToken"
              (upstream w1 (fetches w1) (auth_refresh_request rt)) = Some t ∧
            getToken env w =
              (Return t,
               kv_stored ID_TOKEN_KEY t ID_TOKEN_TTL
                 (after_fetch (auth_refresh_request rt) (logged id_miss_log w1)))) ∨
      (∃ e, truthy (KV_lookup w1 ID_TOKEN_KEY) = None ∧
            token_field "idToken"
              (upstream w1 (fetches w1) (auth_refresh_request rt)) = None ∧
            getToken env w =
              (Throw e,
               after_fetch (auth_refresh_request rt) (logged id_miss_log w1))))).
Proof.
  destruct (getRefreshToken env w) as [[rt|e] w1] eqn:Hr.
  - right. exists rt, w1. split; [done|].
    destruct (truthy (KV_lookup w1 ID_TOKEN_KEY)) as [t|] eqn:Hk.
    + left. eauto using getToken_hit.
    + right.
      destruct (token_field "idToken"
                  (upstream w1 (fetches w1) (auth_refresh_request rt))) as [t|] eqn:Ht.
      * left. eauto using getToken_miss_ok.
      * right. destruct (getToken_miss_fail env w w1 rt) as [e He]; eauto.
  - left. eauto using getToken_refresh_throws.
Qed.

Lemma getToken_Return (env : Env) (w w' : World) (t : string) :
  getToken env w = (Return t, w') →
  token_frame w w' ∧ t ≠ "" ∧ KV_lookup w' ID_TOKEN_KEY = Some t ∧
  ∃ rt, rt ≠ "" ∧ KV_lookup w' REFRESH_TOKEN_KEY = Some rt.
Proof.
  intros H.
  destruct (getToken_cases env w)
    as [(e & w1 & Hr & E)|(rt & w1 & Hr & [(t' & Hk & E)|[(t' & Hk & Ht & E)|(e & Hk & Ht & E)]])];
    rewrite E in H; simplify_eq;
    apply getRefreshToken_Return in Hr as (Hfr & Hrt & Hkv & Hother).
  - apply truthy_Some in Hk as [Hk Hne].
    split; [eapply token_frame_trans; [exact Hfr|apply token_frame_logged]|].
    split; [done|]. split; [done|]. eauto.
  - split.
    { eapply token_frame_trans; [exact Hfr|].
      eapply token_frame_trans; [apply token_frame_logged|].
      eapply token_frame_trans; [apply token_frame_after_fetch|].
      apply token_frame_kv_stored. }
    split; [by eapply token_field_nonempty|].
    split; [apply KV_lookup_kv_stored_eq, ID_TOKEN_TTL_pos|].
    exists rt. split; [done|].
    rewrite KV_lookup_kv_stored_ne by done. by rewrite KV_lookup_after_fetch.
Qed.

Lemma log_after_fetch (req : Request) (w : World) :
  log (after_fetch req w) = log w ++ [Fetch req].
Proof. unfold after_fetch. by destruct (upstream w _ _). Qed.

Lemma getRefreshToken_log (env : Env) (w w' : World) out :
  getRefreshToken env w = (out, w') →
  ∃ rest, log w' = log w ++ KvGet REFRESH_TOKEN_KEY :: rest.
Proof.
  intros H.
  destruct (getRefreshToken_cases env w)
    as [(t & Hk & E)|[(t & Hk & Ht & E)|(e & Hk & Ht & E)]];
    rewrite E in H; simplify_eq;
    unfold kv_stored, logged; heap_simpl; rewrite ?log_after_fetch;
    unfold logged; heap_simpl; rewrite <- ?app_assoc; eauto.
Qed.

(** Whatever the KV namespace holds under "id_token", [#getToken] starts by
    resolving the refresh token. *)
Lemma getToken_log (env : Env) (w w' : World) out :
  getToken env w = (out, w') →
  ∃ rest, log w' = log w ++ KvGet REFRESH_TOKEN_KEY :: rest.
Proof.
  intros H.
  destruct (getToken_cases env w)
    as [(e & w1 & Hr & E)|(rt & w1 & Hr & [(t & Hk & E)|[(t & Hk & Ht & E)|(e & Hk & Ht & E)]])];
    rewrite E in H; simplify_eq;
    apply getRefreshToken_log in Hr as [rest Hr];
    unfold kv_stored, logged; heap_simpl; rewrite ?log_after_fetch;
    unfold logged; heap_simpl; rewrite ?Hr; rewrite <- ?app_assoc; eauto.
Qed.

(** ** The orchestrator on a cache miss *)

Lemma edge_lookup_frame (w w' : World) (url : string) :
  now w' = now w → edge w' = edge w → edge_lookup w' url = edge_lookup w url.
Proof. intros H1 H2. unfold edge_lookup. by rewrite H1, H2. Qed.

Lemma getCache_None (url : string) (w w1 : World) :
  getCache url w = (Return None, w1) →
  edge_fault w = None ∧ edge_lookup w url = None ∧ w1 = logged [CacheMatch url] w.
Proof.
  intros H. destruct (edge_fault w) as [msg|] eqn:Hf.
  { by rewrite (getCache_fault _ msg) in H. }
  destruct (edge_lookup w url) as [entry|] eqn:He.
  { by rewrite (getCache_hit _ _ entry) in H. }
  rewrite getCache_miss in H by done. by simplify_eq.
Qed.

Lemma fetchWithCache_token_throws (env : Env) (url : string) (w w1 w2 : World) e :
  getCache url w = (Return None, w1) →
  getToken env w1 = (Throw e, w2) →
  fetchWithCache env url w = (Throw e, w2).
Proof. intros Hc Ht. unfold fetchWithCache, bind. by rewrite Hc, Ht. Qed.

Lemma fetchWithCache_miss (env : Env) (url : string) (w w1 w2 : World) (tok : string) :
  getCache url w = (Return None, w1) →
  getToken env w1 = (Return tok, w2) →
  fetchWithCache env url w =
    (match upstream w2 (fetches w2) (bearer_request url tok) with
     | NetOk _ => Return (length (heap w2))
     | NetFail msg => Throw (FetchError msg)
     end,
     after_upstream url (bearer_request url tok) w2).
Proof.
  intros Hc Ht. unfold fetchWithCache. unfold bind at 1. rewrite Hc.
  unfold bind at 1. rewrite Ht. unfold after_upstream.
  unfold fetch, Response_ok, emit, alloc, deref, bind, ret. heap_simpl.
  destruct (upstream w2 (fetches w2) (bearer_request url tok)) as [r|msg];
    [|done].
  heap_simpl. unfold ok at 1. heap_simpl. fold (ok r).
  destruct (ok r); [|world_eq].
  erewrite putCache_run; [|heap_simpl; reflexivity|done].
  heap_simpl. unfold allocated, logged. heap_simpl.
  rewrite !length_app. cbn [length]. rewrite Nat.add_1_r.
  rewrite <- !app_assoc. reflexivity.
Qed.

Lemma log_after_upstream (url : string) (req : Request) (w : World) :
  ∃ rest, log (after_upstream url req w) = log w ++ Fetch req :: rest.
Proof.
  unfold after_upstream. destruct (upstream w _ _) as [r|]; [destruct (ok r)|];
    unfold logged, allocated; heap_simpl; rewrite <- ?app_assoc; eauto.
Qed.

Lemma ok_true (r : Response) : ok r = true ↔ 200 ≤ status r ≤ 299.
Proof. unfold ok. rewrite andb_true_iff, !Z.leb_le. done. Qed.

(** C2, amended.  On a cache miss, once the ID token is obtained, the
    upstream response is returned to the caller as received.  If its status
    is 2xx, a copy is scheduled for storage whatever [Cache-Control] it
    carried: [putCache] writes [public, s-maxage=600] over it.  If its status
    is not 2xx, nothing is scheduled and the edge cache is unchanged, so the
    same call made again misses the cache again and sends the same upstream
    request. *)
Theorem upstream_response_cached_iff_ok (env : Env) (url : string)
    (w w1 w2 : World) (tok : string) (r : Response) :
  getCache url w = (Return None, w1) →
  getToken env w1 = (Return tok, w2) →
  upstream w2 (fetches w2) (bearer_request url tok) = NetOk r →
  ∃ (l : loc) (w3 : World),
    fetchWithCache env url w = (Return l, w3) ∧
    heap w3 !! l = Some (incoming r) ∧
    edge w3 = edge w ∧
    (200 ≤ status r ≤ 299 →
       ∃ (l2 : loc) (stored : Response),
         l2 ≠ l ∧
         background w3 = background w ++ [PutTask url l2] ∧
         heap w3 !! l2 = Some stored ∧
         headers stored =
           <["cache-control" := "public, s-maxage=600"]> (headers r) ∧
         status stored = status r ∧ body stored = body r) ∧
    (¬ 200 ≤ status r ≤ 299 →
       background w3 = background w ∧
       ∃ (out : Outcome loc) (w4 : World) (rest : list Event),
         fetchWithCache env url w3 = (out, w4) ∧
         log w4 =
           log w3 ++
           [CacheMatch url;
            KvGet "refresh_token"; ConsoleDebug "Cached refresh token found";
            KvGet "id_token"; ConsoleDebug "Cached ID token found";
            Fetch (bearer_request url tok)] ++ rest).
Proof.
  intros Hc Ht Hup.
  pose proof (getCache_None _ _ _ Hc) as (Hf & He & ->).
  pose proof (getToken_Return _ _ _ _ Ht) as (Hfr & Hne & Hid & rt & Hrt & Hrf).
  destruct Hfr as (Hnow & Hedge & Hfault & Hbg & Hupw).
  rewrite (fetchWithCache_miss env url w _ w2 tok Hc Ht).
  rewrite Hup. eexists _, _. split; [reflexivity|].
  unfold after_upstream. rewrite Hup.
  destruct (ok r) eqn:Hok.
  - unfold allocated, logged. heap_simpl.
    split; [by apply list_lookup_middle|].
    split; [exact Hedge|]. split.
    + intros _. exists (S (S (length (heap w2)))),
        (with_bodyUsed true (stored_copy (incoming r))).
      split; [lia|]. split; [by rewrite Hbg|].
      split; [apply lookup_snoc3|]. done.
    + intros Hn. apply ok_true in Hok. done.
  - set (w3 := own_body (length (heap w2))
                 (allocated [incoming r]
                    (set_fetches (S (fetches w2))
                       (logged [Fetch (bearer_request url tok)] w2)))).
    split; [apply lookup_snoc|]. split; [exact Hedge|]. split.
    + intros Hs%ok_true. congruence.
    + intros _. split; [exact Hbg|].
      assert (getCache url w3 = (Return None, logged [CacheMatch url] w3)) as Hc3.
      { apply getCache_miss; [exact (eq_trans Hfault Hf)|].
        rewrite <- He. apply edge_lookup_frame; [exact Hnow|exact Hedge]. }
      assert (getRefreshToken env (logged [CacheMatch url] w3) =
              (Return rt, logged refresh_hit_log (logged [CacheMatch url] w3))) as Hr3.
      { apply getRefreshToken_hit. apply truthy_Some. split; [exact Hrf|done]. }
      assert (getToken env (logged [CacheMatch url] w3) =
              (Return tok, logged id_hit_log
                             (logged refresh_hit_log (logged [CacheMatch url] w3)))) as Ht3.
      { eapply getToken_hit; [exact Hr3|]. apply truthy_Some. split; [exact Hid|done]. }
      rewrite (fetchWithCache_miss env url w3 _ _ tok Hc3 Ht3).
      edestruct (log_after_upstream url (bearer_request url tok)) as [rest Hrest].
      eexists _, _, rest. split; [reflexivity|].
      rewrite Hrest. unfold logged. heap_simpl. rewrite <- !app_assoc. reflexivity.
Qed.

Lemma getNewRefreshToken_Return (env : Env) (w w' : World) (t : string) :
  getNewRefreshToken env w = (Return t, w') →
  token_field "refreshToken" (upstream w (fetches w) (auth_user_request env)) = Some t.
Proof.
  intros H.
  destruct (token_field "refreshToken"
              (upstream w (fetches w) (auth_user_request env))) as [t'|] eqn:E.
  - rewrite (getNewRefreshToken_ok _ _ t') in H by done. by simplify_eq.
  - destruct (getNewRefreshToken_fail env w E) as [e He]. congruence.
Qed.

Lemma getNewIdToken_Return (rt : string) (w w' : World) (t : string) :
  getNewIdToken rt w = (Return t, w') →
  token_field "idToken" (upstream w (fetches w) (auth_refresh_request rt)) = Some t.
Proof.
  intros H.
  destruct (token_field "idToken"
              (upstream w (fetches w) (auth_refresh_request rt))) as [t'|] eqn:E.
  - rewrite (getNewIdToken_ok _ _ t') in H by done. by simplify_eq.
  - destruct (getNewIdToken_fail rt w E) as [e He]. congruence.
Qed.

(** C6.  An acquisition call succeeds exactly when the answer is a
    response, of any status, whose JSON body has a non-empty string in the
    expected field.  When the refresh token acquisition fails,
    [#getNewRefreshToken], [#getRefreshToken] and [#getToken] throw and the
    KV namespace is unchanged.  When the ID token acquisition fails,
    [#getNewIdToken] and [#getToken] throw and the KV namespace is what the
    refresh token resolution left: nothing is written for the ID token. *)
Theorem token_acquisition_failure (env : Env) :
  (∀ field answer t,
     token_field field answer = Some t ↔
     ∃ r json, answer = NetOk r ∧ JSON_parse (body r) = Some json ∧
               json !! field = Some t ∧ t ≠ "") ∧
  (∀ w t,
     (∃ w', getNewRefreshToken env w = (Return t, w')) ↔
     token_field "refreshToken"
       (upstream w (fetches w) (auth_user_request env)) = Some t) ∧
  (∀ rt w t,
     (∃ w', getNewIdToken rt w = (Return t, w')) ↔
     token_field "idToken"
       (upstream w (fetches w) (auth_refresh_request rt)) = Some t) ∧
  (∀ w,
     token_field "refreshToken"
       (upstream w (fetches w) (auth_user_request env)) = None →
     (∃ e w', getNewRefreshToken env w = (Throw e, w') ∧ KV w' = KV w) ∧
     (truthy (KV_lookup w REFRESH_TOKEN_KEY) = None →
      ∃ e w', getRefreshToken env w = (Throw e, w') ∧
              getToken env w = (Throw e, w') ∧ KV w' = KV w)) ∧
  (∀ w rt w1,
     getRefreshToken env w = (Return rt, w1) →
     token_field "idToken"
       (upstream w1 (fetches w1) (auth_refresh_request rt)) = None →
     (∃ e w', getNewIdToken rt w1 = (Throw e, w') ∧ KV w' = KV w1) ∧
     (truthy (KV_lookup w1 ID_TOKEN_KEY) = None →
      ∃ e w', getToken env w = (Throw e, w') ∧ KV w' = KV w1)).
Proof.
  split; [apply token_field_Some|]. split; [|split; [|split]].
  - intros w t. split.
    + intros [w' H]. by eapply getNewRefreshToken_Return.
    + intros H. eauto using getNewRefreshToken_ok.
  - intros rt w t. split.
    + intros [w' H]. by eapply getNewIdToken_Return.
    + intros H. eauto using getNewIdToken_ok.
  - intros w Hfail. split.
    + destruct (getNewRefreshToken_fail env w Hfail) as [e He].
      eexists _, _. split; [exact He|]. apply KV_after_fetch.
    + intros Hk. destruct (getRefreshToken_miss_fail env w Hk Hfail) as [e He].
      eexists _, _. split; [exact He|].
      split; [by apply getToken_refresh_throws|]. by rewrite KV_after_fetch.
  - intros w rt w1 Hr Hfail. split.
    + destruct (getNewIdToken_fail rt w1 Hfail) as [e He].
      eexists _, _. split; [exact He|]. apply KV_after_fetch.
    + intros Hk. destruct (getToken_miss_fail env w w1 rt Hr Hk Hfail) as [e He].
      eexists _, _. split; [exact He|]. by rewrite KV_after_fetch.
Qed.

(** C9.  The tokens are stored under the keys "refresh_token" and
    "id_token" with TTLs of 518400 seconds (6 days) and 82800 seconds
    (23 hours), each strictly shorter than the lifetime that the source's
    comments give for the upstream token (7 days and 24 hours). *)
Theorem token_keys_and_ttls (env : Env) :
  REFRESH_TOKEN_KEY = "refresh_token" ∧ ID_TOKEN_KEY = "id_token" ∧
  REFRESH_TOKEN_TTL = 518400 ∧ ID_TOKEN_TTL = 82800 ∧
  UPSTREAM_REFRESH_TOKEN_LIFETIME = 7 * 86400 ∧
  UPSTREAM_ID_TOKEN_LIFETIME = 24 * 3600 ∧
  REFRESH_TOKEN_TTL < UPSTREAM_REFRESH_TOKEN_LIFETIME ∧
  ID_TOKEN_TTL < UPSTREAM_ID_TOKEN_LIFETIME ∧
  (∀ w t,
     truthy (KV_lookup w REFRESH_TOKEN_KEY) = None →
     token_field "refreshToken"
       (upstream w (fetches w) (auth_user_request env)) = Some t →
     ∃ w', getRefreshToken env w = (Return t, w') ∧
           KV w' = <["refresh_token" := (t, Some (now w + 1000 * 518400))]> (KV w) ∧
           last (log w') = Some (KvPut "refresh_token" t 518400)) ∧
  (∀ w rt w1 t,
     getRefreshToken env w = (Return rt, w1) →
     truthy (KV_lookup w1 ID_TOKEN_KEY) = None →
     token_field "idToken"
       (upstream w1 (fetches w1) (auth_refresh_request rt)) = Some t →
     ∃ w', getToken env w = (Return t, w') ∧
           KV w' = <["id_token" := (t, Some (now w1 + 1000 * 82800))]> (KV w1) ∧
           last (log w') = Some (KvPut "id_token" t 82800)).
Proof.
  do 8 (split; [done|]). split.
  - intros w t Hk Ht. eexists. split; [by apply getRefreshToken_miss_ok|].
    pose proof (token_frame_after_fetch (auth_user_request env)
                  (logged refresh_miss_log w)) as (Hnow & _).
    unfold kv_stored. heap_simpl. rewrite KV_after_fetch, Hnow.
    split; [done|]. unfold logged. heap_simpl. apply last_snoc.
  - intros w rt w1 t Hr Hk Ht. eexists.
    split; [by eapply getToken_miss_ok|].
    pose proof (token_frame_after_fetch (auth_refresh_request rt)
                  (logged id_miss_log w1)) as (Hnow & _).
    unfold kv_stored. heap_simpl. rewrite KV_after_fetch, Hnow.
    split; [done|]. unfold logged. heap_simpl. apply last_snoc.
Qed.

(** ** What reaches the KV namespace *)

Lemma stores_no_empty_same (w w' : World) : KV w' = KV w → stores_no_empty w w'.
Proof. intros E key v expiry H. left. by rewrite <- E. Qed.

Lemma stores_no_empty_trans (w1 w2 w3 : World) :
  stores_no_empty w1 w2 → stores_no_empty w2 w3 → stores_no_empty w1 w3.
Proof.
  intros H12 H23 key v expiry H. destruct (H23 _ _ _ H) as [H'|]; [|by right].
  by apply H12.
Qed.

Lemma stores_no_empty_kv_stored key t ttl (w : World) :
  t ≠ "" → stores_no_empty w (kv_stored key t ttl w).
Proof.
  intros Hne k v expiry. unfold kv_stored. heap_simpl.
  destruct (decide (key = k)) as [->|Hk].
  - rewrite lookup_insert_eq. intros [= <- <-]. by right.
  - rewrite lookup_insert_ne by done. by left.
Qed.

Lemma getRefreshToken_stores (env : Env) (w w' : World) out :
  getRefreshToken env w = (out, w') → stores_no_empty w w'.
Proof.
  intros H.
  destruct (getRefreshToken_cases env w)
    as [(t & Hk & E)|[(t & Hk & Ht & E)|(e & Hk & Ht & E)]];
    rewrite E in H; simplify_eq.
  - by apply stores_no_empty_same.
  - eapply stores_no_empty_trans;
      [|apply stores_no_empty_kv_stored; by eapply token_field_nonempty].
    apply stores_no_empty_same. by rewrite KV_after_fetch.
  - apply stores_no_empty_same. by rewrite KV_after_fetch.
Qed.

Lemma getToken_stores (env : Env) (w w' : World) out :
  getToken env w = (out, w') → stores_no_empty w w'.
Proof.
  intros H.
  destruct (getToken_cases env w)
    as [(e & w1 & Hr & E)|(rt & w1 & Hr & [(t & Hk & E)|[(t & Hk & Ht & E)|(e & Hk & Ht & E)]])];
    rewrite E in H; simplify_eq;
    apply getRefreshToken_stores in Hr; [done|..];
    (eapply stores_no_empty_trans; [exact Hr|]).
  - by apply stores_no_empty_same.
  - eapply stores_no_empty_trans;
      [|apply stores_no_empty_kv_stored; by eapply token_field_nonempty].
    apply stores_no_empty_same. by rewrite KV_after_fetch.
  - apply stores_no_empty_same. by rewrite KV_after_fetch.
Qed.

Lemma KV_after_upstream url req w : KV (after_upstream url req w) = KV w.
Proof.
  unfold after_upstream. destruct (upstream w _ _) as [r|]; [destruct (ok r)|]; done.
Qed.

Lemma fetchWithCache_stores (env : Env) (url : string) (w w' : World) out :
  fetchWithCache env url w = (out, w') → stores_no_empty w w'.
Proof.
  intros H. destruct (edge_fault w) as [msg|] eqn:Hf.
  { unfold fetchWithCache, bind in H. rewrite (getCache_fault _ msg) in H by done.
    simplify_eq. by apply stores_no_empty_same. }
  destruct (edge_lookup w url) as [entry|] eqn:He.
  { unfold fetchWithCache, bind, ret in H.
    rewrite (getCache_hit _ _ entry) in H by done.
    simplify_eq. by apply stores_no_empty_same. }
  pose proof (getCache_miss url w Hf He) as Hc.
  destruct (getToken env (logged [CacheMatch url] w)) as [[tok|e] w2] eqn:Ht.
  - rewrite (fetchWithCache_miss _ _ _ _ _ _ Hc Ht) in H. simplify_eq.
    eapply stores_no_empty_trans; [eapply stores_no_empty_trans|].
    + apply (stores_no_empty_same w (logged [CacheMatch url] w)). done.
    + eapply getToken_stores, Ht.
    + apply stores_no_empty_same, KV_after_upstream.
  - rewrite (fetchWithCache_token_throws _ _ _ _ _ _ Hc Ht) in H. simplify_eq.
    eapply stores_no_empty_trans; [|eapply getToken_stores, Ht].
    by apply stores_no_empty_same.
Qed.

Lemma get_stores (env : Env) (endpoint : string) (w w' : World) out :
  get env endpoint w = (out, w') → stores_no_empty w w'.
Proof.
  unfold get, checkConfig. unfold bind at 1.
  destruct (falsy _ || falsy _).
  - intros [= _ <-]. by apply stores_no_empty_same.
  - apply fetchWithCache_stores.
Qed.

(** C10.  A token returned by [#getRefreshToken] or [#getToken] is never
    the empty string.  An empty string in the KV namespace counts as a miss:
    the token is acquired again, and what is returned is then non-empty and
    stored.  Whatever the outcome of [#getToken] or of [get], every entry of
    the KV namespace that was not there before holds a non-empty value. *)
Theorem tokens_never_empty (env : Env) (w : World) :
  (∀ t w', getRefreshToken env w = (Return t, w') → t ≠ "") ∧
  (∀ t w', getToken env w = (Return t, w') → t ≠ "") ∧
  (KV_lookup w REFRESH_TOKEN_KEY = Some "" →
     ∃ out w' rest,
       getRefreshToken env w = (out, w') ∧
       (∀ t, out = Return t → t ≠ "" ∧ KV_lookup w' REFRESH_TOKEN_KEY = Some t) ∧
       log w' =
         log w ++
         [KvGet "refresh_token";
          ConsoleDebug "Cached token not found, fetching new refresh token";
          Fetch (auth_user_request env)] ++ rest) ∧
  (∀ rt w1,
     getRefreshToken env w = (Return rt, w1) →
     KV_lookup w1 ID_TOKEN_KEY = Some "" →
     ∃ out w' rest,
       getToken env w = (out, w') ∧
       (∀ t, out = Return t → t ≠ "" ∧ KV_lookup w' ID_TOKEN_KEY = Some t) ∧
       log w' =
         log w1 ++
         [KvGet "id_token";
          ConsoleDebug "Cached token not found, fetching new ID token";
          Fetch (auth_refresh_request rt)] ++ rest) ∧
  (∀ out w' key v expiry,
     getToken env w = (out, w') →
     KV w' !! key = Some (v, expiry) →
     KV w !! key = Some (v, expiry) ∨ v ≠ "") ∧
  (∀ endpoint out w' key v expiry,
     get env endpoint w = (out, w') →
     KV w' !! key = Some (v, expiry) →
     KV w !! key = Some (v, expiry) ∨ v ≠ "").
Proof.
  split; [|split; [|split; [|split; [|split]]]].
  - intros t w' H. by apply getRefreshToken_Return in H as (_ & ? & _).
  - intros t w' H. by apply getToken_Return in H as (_ & ? & _).
  - intros Hk.
    assert (truthy (KV_lookup w REFRESH_TOKEN_KEY) = None) as Hmiss
      by (by rewrite Hk).
    destruct (getRefreshToken env w) as [out w'] eqn:E. exists out, w'.
    assert (∃ rest, log w' =
              log w ++ refresh_miss_log ++ [Fetch (auth_user_request env)] ++ rest)
      as [rest Hlog].
    { destruct (getRefreshToken_cases env w)
        as [(t & Hk' & E')|[(t & Hk' & Ht & E')|(e & Hk' & Ht & E')]];
        [congruence|..]; rewrite E' in E; simplify_eq;
        unfold kv_stored, after_fetch;
        destruct (upstream _ _ _); unfold allocated, logged; heap_simpl;
        rewrite <- ?app_assoc; eauto. }
    exists rest. split; [done|]. split; [|by rewrite Hlog].
    intros t ->. by apply getRefreshToken_Return in E as (_ & ? & ? & _).
  - intros rt w1 Hr Hk.
    assert (truthy (KV_lookup w1 ID_TOKEN_KEY) = None) as Hmiss
      by (by rewrite Hk).
    destruct (getToken env w) as [out w'] eqn:E. exists out, w'.
    assert (∃ rest, log w' =
              log w1 ++ id_miss_log ++ [Fetch (auth_refresh_request rt)] ++ rest)
      as [rest Hlog].
    { destruct (getToken_cases env w)
        as [(e & w1' & Hr' & E')|(rt' & w1' & Hr' & [(t & Hk' & E')|[(t & Hk' & Ht & E')|(e & Hk' & Ht & E')]])];
        rewrite Hr in Hr'; simplify_eq;
        rewrite E' in E; simplify_eq;
        unfold kv_stored, after_fetch;
        destruct (upstream _ _ _); unfold allocated, logged; heap_simpl;
        rewrite <- ?app_assoc; eauto. }
    exists rest. split; [done|]. split; [|by rewrite Hlog].
    intros t ->. by apply getToken_Return in E as (_ & ? & ? & _).
  - intros out w' key v expiry H. by apply (getToken_stores env w w' out).
  - intros endpoint out w' key v expiry H. by apply (get_stores env endpoint w w' out).
Qed.

(** * Further properties of the code *)

(** X7.  [getCache] only reads.  Whatever its outcome, it leaves the edge
    cache, the KV namespace, the pending promises and the clock as they
    were, sends nothing upstream, changes no existing object, and logs the
    one cache lookup. *)
Theorem getCache_read_only (url : string) (w : World) :
  edge (getCache url w).2 = edge w ∧
  KV (getCache url w).2 = KV w ∧
  background (getCache url w).2 = background w ∧
  fetches (getCache url w).2 = fetches w ∧
  now (getCache url w).2 = now w ∧
  log (getCache url w).2 = log w ++ [CacheMatch url] ∧
  (∀ l r, heap w !! l = Some r → heap (getCache url w).2 !! l = Some r).
Proof.
  destruct (edge_fault w) as [msg|] eqn:Hf.
  { rewrite (getCache_fault _ msg) by done. done. }
  destruct (edge_lookup w url) as [entry|] eqn:He.
  - rewrite (getCache_hit _ _ entry) by done. cbn [snd].
    unfold allocated, logged. heap_simpl. repeat split; try done.
    intros l r Hl. by apply lookup_app_l_Some.
  - rewrite getCache_miss by done. done.
Qed.

(** ** More on the credential manager *)

Lemma fetches_after_fetch (req : Request) (w : World) :
  fetches (after_fetch req w) = S (fetches w).
Proof. unfold after_fetch. by destruct (upstream w _ _). Qed.

Lemma upstream_after_fetch (req : Request) (w : World) :
  upstream (after_fetch req w) = upstream w.
Proof. unfold after_fetch. by destruct (upstream w _ _). Qed.

Lemma getRefreshToken_frame (env : Env) (w w' : World) out :
  getRefreshToken env w = (out, w') → token_frame w w'.
Proof.
  intros H.
  destruct (getRefreshToken_cases env w)
    as [(t & Hk & E)|[(t & Hk & Ht & E)|(e & Hk & Ht & E)]];
    rewrite E in H; simplify_eq.
  - apply token_frame_logged.
  - eapply token_frame_trans; [apply token_frame_logged|].
    eapply token_frame_trans; [apply token_frame_after_fetch|].
    apply token_frame_kv_stored.
  - eapply token_frame_trans; [apply token_frame_logged|].
    apply token_frame_after_fetch.
Qed.

Lemma getToken_frame (env : Env) (w w' : World) out :
  getToken env w = (out, w') → token_frame w w'.
Proof.
  intros H.
  destruct (getToken_cases env w)
    as [(e & w1 & Hr & E)|(rt & w1 & Hr & [(t & Hk & E)|[(t & Hk & Ht & E)|(e & Hk & Ht & E)]])];
    rewrite E in H; simplify_eq; apply getRefreshToken_frame in Hr; [done|..];
    (eapply token_frame_trans; [exact Hr|]).
  - apply token_frame_logged.
  - eapply token_frame_trans; [apply token_frame_logged|].
    eapply token_frame_trans; [apply token_frame_after_fetch|].
    apply token_frame_kv_stored.
  - eapply token_frame_trans; [apply token_frame_logged|].
    apply token_frame_after_fetch.
Qed.

Lemma getRefreshToken_events (env : Env) (w w' : World) out :
  getRefreshToken env w = (out, w') →
  ∃ es, log w' = log w ++ es ∧
        Forall (token_event (auth_user_request env) auth_refresh_request) es.
Proof.
  intros H.
  destruct (getRefreshToken_cases env w)
    as [(t & Hk & E)|[(t & Hk & Ht & E)|(e & Hk & Ht & E)]];
    rewrite E in H; simplify_eq;
    unfold kv_stored, logged; heap_simpl; rewrite ?log_after_fetch;
    unfold logged; heap_simpl; rewrite <- ?app_assoc;
    (eexists; split; [reflexivity|]);
    repeat apply Forall_cons_2; try apply Forall_nil_2; cbn; eauto.
  split; [eauto|]. by eapply token_field_nonempty.
Qed.

Lemma getToken_events (env : Env) (w w' : World) out :
  getToken env w = (out, w') →
  ∃ es, log w' = log w ++ es ∧
        Forall (token_event (auth_user_request env) auth_refresh_request) es.
Proof.
  intros H.
  destruct (getToken_cases env w)
    as [(e & w1 & Hr & E)|(rt & w1 & Hr & [(t & Hk & E)|[(t & Hk & Ht & E)|(e & Hk & Ht & E)]])];
    rewrite E in H; simplify_eq;
    try (pose proof (getRefreshToken_Return _ _ _ _ Hr) as (_ & Hrt & _));
    apply getRefreshToken_events in Hr as (es & Hlog & Hes);
    [by exists es|..];
    unfold kv_stored, logged; heap_simpl; rewrite ?log_after_fetch;
    unfold logged; heap_simpl; rewrite Hlog; rewrite <- ?app_assoc;
    (eexists; split; [reflexivity|]);
    (apply Forall_app; split; [exact Hes|]);
    repeat apply Forall_cons_2; try apply Forall_nil_2; cbn; eauto.
  split; [eauto|]. by eapply token_field_nonempty.
Qed.

(** X13.  Resolving the ID token never touches the edge cache.  Whatever
    its outcome, [#getToken] leaves the edge cache, the pending promises and
    the clock as they were, and everything it does is one of: a read or a
    write of the keys "refresh_token" and "id_token" (never writing the
    empty string), console output, the login request, or a refresh request
    carrying a non-empty refresh token. *)
Theorem getToken_effects (env : Env) (w : World) :
  edge (getToken env w).2 = edge w ∧
  background (getToken env w).2 = background w ∧
  now (getToken env w).2 = now w ∧
  ∃ es, log (getToken env w).2 = log w ++ es ∧
        Forall (token_event (auth_user_request env) auth_refresh_request) es.
Proof.
  destruct (getToken env w) as [out w'] eqn:H. cbn [snd].
  destruct (getToken_frame _ _ _ _ H) as (Hn & He & _ & Hb & _).
  do 3 (split; [done|]). by eapply getToken_events.
Qed.

Lemma getToken_warm_run (env : Env) (w : World) (rt tok : string) :
  truthy (KV_lookup w REFRESH_TOKEN_KEY) = Some rt →
  truthy (KV_lookup w ID_TOKEN_KEY) = Some tok →
  getToken env w =
    (Return tok,
     set_log (log w ++
              [KvGet "refresh_token"; ConsoleDebug "Cached refresh token found";
               KvGet "id_token"; ConsoleDebug "Cached ID token found"]) w).
Proof.
  intros Hr Hi.
  rewrite (getToken_hit env w (logged refresh_hit_log w) rt tok);
    [|by apply getRefreshToken_hit|exact Hi].
  unfold logged, id_hit_log, refresh_hit_log. heap_simpl.
  by rewrite <- app_assoc.
Qed.

(** X4.  With a live, non-empty value under both keys, [#getToken] returns
    the stored ID token after two reads of the KV namespace: nothing is
    sent upstream, nothing is written, and the world is otherwise exactly
    what it was. *)
Theorem getToken_both_cached (env : Env) (w : World) (rt tok : string) :
  KV_lookup w "refresh_token" = Some rt → rt ≠ "" →
  KV_lookup w "id_token" = Some tok → tok ≠ "" →
  getToken env w =
    (Return tok,
     set_log (log w ++
              [KvGet "refresh_token"; ConsoleDebug "Cached refresh token found";
               KvGet "id_token"; ConsoleDebug "Cached ID token found"]) w).
Proof.
  intros Hr Hrt Hi Htok. apply (getToken_warm_run env w rt tok).
  - change "refresh_token" with REFRESH_TOKEN_KEY in Hr. rewrite Hr.
    by apply truthy_Some.
  - change "id_token" with ID_TOKEN_KEY in Hi. rewrite Hi. by apply truthy_Some.
Qed.

(** X11.  [#getToken] can be repeated.  Right after a call that returned a
    token, whichever way it got it, a second call returns the same token
    from the KV namespace, sends nothing upstream and writes nothing. *)
Theorem getToken_twice (env : Env) (w w' : World) (tok : string) :
  getToken env w = (Return tok, w') →
  getToken env w' =
    (Return tok,
     set_log (log w' ++
              [KvGet "refresh_token"; ConsoleDebug "Cached refresh token found";
               KvGet "id_token"; ConsoleDebug "Cached ID token found"]) w').
Proof.
  intros H.
  apply getToken_Return in H as (_ & Hne & Hid & rt & Hrt & Hrf).
  apply (getToken_warm_run env w' rt tok).
  - rewrite Hrf. by apply truthy_Some.
  - rewrite Hid. by apply truthy_Some.
Qed.


Lemma KV_lookup_set_now (t : Z) (w : World) (key v : string) (expiry : option Z) :
  KV w !! key = Some (v, expiry) →
  KV_lookup (set_now t w) key = (if live t expiry then Some v else None).
Proof. intros H. unfold KV_lookup. cbn [KV now set_now]. by rewrite H. Qed.

Lemma getRefreshToken_miss_log (env : Env) (w : World) :
  truthy (KV_lookup w REFRESH_TOKEN_KEY) = None →
  ∃ out w' rest,
    getRefreshToken env w = (out, w') ∧
    log w' =
      log w ++
      [KvGet "refresh_token";
       ConsoleDebug "Cached token not found, fetching new refresh token";
       Fetch (auth_user_request env)] ++ rest.
Proof.
  intros Hk.
  destruct (getRefreshToken_cases env w)
    as [(t & Hk' & E)|[(t & Hk' & Ht & E)|(e & Hk' & Ht & E)]];
    [congruence|..]; rewrite E; eexists _, _, _; (split; [reflexivity|]);
    unfold kv_stored, logged; heap_simpl; rewrite ?log_after_fetch;
    unfold logged, refresh_miss_log; heap_simpl; rewrite <- ?app_assoc;
    cbn [app]; reflexivity.
Qed.

(** X5.  A refresh token that [#getRefreshToken] has just acquired at
    instant [now] is served from the KV namespace, with no upstream call,
    at every instant before [now] + 518400 seconds; from that instant on
    the entry counts as absent and the next call logs in again. *)
Theorem refresh_token_ttl_window (env : Env) (w : World) (rt : string) :
  truthy (KV_lookup w REFRESH_TOKEN_KEY) = None →
  token_field "refreshToken"
    (upstream w (fetches w) (auth_user_request env)) = Some rt →
  ∃ w' : World,
    getRefreshToken env w = (Return rt, w') ∧
    (∀ t, t < now w + 1000 * 518400 →
       getRefreshToken env (set_now t w') =
         (Return rt,
          set_log (log w' ++ [KvGet "refresh_token";
                              ConsoleDebug "Cached refresh token found"])
                  (set_now t w'))) ∧
    (∀ t, now w + 1000 * 518400 ≤ t →
       KV_lookup (set_now t w') "refresh_token" = None ∧
       ∃ out w'' rest,
         getRefreshToken env (set_now t w') = (out, w'') ∧
         log w'' =
           log w' ++
           [KvGet "refresh_token";
            ConsoleDebug "Cached token not found, fetching new refresh token";
            Fetch (auth_user_request env)] ++ rest).
Proof.
  intros Hk Ht. eexists. split; [by apply getRefreshToken_miss_ok|].
  set (w' := kv_stored _ _ _ _).
  assert (KV w' !! REFRESH_TOKEN_KEY =
          Some (rt, Some (now w + 1000 * REFRESH_TOKEN_TTL))) as Hkv.
  { unfold w', kv_stored. heap_simpl.
    pose proof (token_frame_after_fetch (auth_user_request env)
                  (logged refresh_miss_log w)) as (Hnow & _).
    rewrite Hnow. apply lookup_insert_eq. }
  pose proof (token_field_nonempty _ _ _ Ht) as Hne.
  split.
  - intros t Hlt. rewrite (getRefreshToken_hit env _ rt); [done|].
    rewrite (KV_lookup_set_now _ _ _ _ _ Hkv). cbn [live].
    rewrite (proj2 (Z.ltb_lt _ _)) by exact Hlt. by apply truthy_Some.
  - intros t Hge.
    assert (KV_lookup (set_now t w') REFRESH_TOKEN_KEY = None) as Hnone.
    { rewrite (KV_lookup_set_now _ _ _ _ _ Hkv). cbn [live].
      by rewrite (proj2 (Z.ltb_ge _ _)) by exact Hge. }
    split; [exact Hnone|].
    apply (getRefreshToken_miss_log env (set_now t w')). by rewrite Hnone.
Qed.

Lemma getToken_miss_log (env : Env) (w w1 : World) (rt : string) :
  getRefreshToken env w = (Return rt, w1) →
  truthy (KV_lookup w1 ID_TOKEN_KEY) = None →
  ∃ out w' rest,
    getToken env w = (out, w') ∧
    log w' =
      log w1 ++
      [KvGet "id_token";
       ConsoleDebug "Cached token not found, fetching new ID token";
       Fetch (auth_refresh_request rt)] ++ rest.
Proof.
  intros Hr Hk.
  destruct (token_field "idToken"
              (upstream w1 (fetches w1) (auth_refresh_request rt))) as [t|] eqn:Ht.
  - rewrite (getToken_miss_ok env w w1 rt t Hr Hk Ht).
    eexists _, _, _. split; [reflexivity|].
    unfold kv_stored, logged; heap_simpl; rewrite log_after_fetch;
      unfold logged, id_miss_log; heap_simpl; rewrite <- ?app_assoc;
      cbn [app]; reflexivity.
  - destruct (getToken_miss_fail env w w1 rt Hr Hk Ht) as [e ->].
    eexists _, _, []. split; [reflexivity|].
    rewrite log_after_fetch. unfold logged, id_miss_log; heap_simpl.
    rewrite <- ?app_assoc. reflexivity.
Qed.

(** X6.  An ID token that [#getToken] has just acquired at instant [now] is
    live in the KV namespace at every instant before [now] + 82800 seconds
    and absent from that instant on.  While a refresh token is live too, a
    call inside the window returns the stored ID token with no upstream
    call, and a call after it sends a refresh request with that refresh
    token. *)
Theorem id_token_ttl_window (env : Env) (w w1 : World) (rt tok : string) :
  getRefreshToken env w = (Return rt, w1) →
  truthy (KV_lookup w1 ID_TOKEN_KEY) = None →
  token_field "idToken"
    (upstream w1 (fetches w1) (auth_refresh_request rt)) = Some tok →
  ∃ w' : World,
    getToken env w = (Return tok, w') ∧
    (∀ t, t < now w + 1000 * 82800 →
       KV_lookup (set_now t w') "id_token" = Some tok) ∧
    (∀ t, now w + 1000 * 82800 ≤ t →
       KV_lookup (set_now t w') "id_token" = None) ∧
    (∀ t rt', KV_lookup (set_now t w') "refresh_token" = Some rt' → rt' ≠ "" →
       (t < now w + 1000 * 82800 →
          getToken env (set_now t w') =
            (Return tok,
             set_log (log w' ++
                      [KvGet "refresh_token";
                       ConsoleDebug "Cached refresh token found";
                       KvGet "id_token"; ConsoleDebug "Cached ID token found"])
                     (set_now t w'))) ∧
       (now w + 1000 * 82800 ≤ t →
          ∃ out w'' rest,
            getToken env (set_now t w') = (out, w'') ∧
            log w'' =
              log w' ++
              [KvGet "refresh_token"; ConsoleDebug "Cached refresh token found";
               KvGet "id_token";
               ConsoleDebug "Cached token not found, fetching new ID token";
               Fetch (auth_refresh_request rt')] ++ rest)).
Proof.
  intros Hr Hk Ht. eexists. split; [by eapply getToken_miss_ok|].
  set (w' := kv_stored _ _ _ _).
  pose proof (getRefreshToken_frame _ _ _ _ Hr) as (Hnow1 & _).
  assert (KV w' !! ID_TOKEN_KEY =
          Some (tok, Some (now w + 1000 * ID_TOKEN_TTL))) as Hkv.
  { unfold w', kv_stored. heap_simpl.
    pose proof (token_frame_after_fetch (auth_refresh_request rt)
                  (logged id_miss_log w1)) as (Hnow & _).
    rewrite Hnow. unfold logged. heap_simpl. rewrite Hnow1.
    apply lookup_insert_eq. }
  pose proof (token_field_nonempty _ _ _ Ht) as Hne.
  assert (∀ t, t < now w + 1000 * 82800 →
               KV_lookup (set_now t w') ID_TOKEN_KEY = Some tok) as Hin.
  { intros t Hlt. rewrite (KV_lookup_set_now _ _ _ _ _ Hkv). cbn [live].
    by rewrite (proj2 (Z.ltb_lt _ _)) by exact Hlt. }
  assert (∀ t, now w + 1000 * 82800 ≤ t →
               KV_lookup (set_now t w') ID_TOKEN_KEY = None) as Hout.
  { intros t Hge. rewrite (KV_lookup_set_now _ _ _ _ _ Hkv). cbn [live].
    by rewrite (proj2 (Z.ltb_ge _ _)) by exact Hge. }
  split; [exact Hin|]. split; [exact Hout|].
  intros t rt' Hrf Hrt'.
  assert (truthy (KV_lookup (set_now t w') REFRESH_TOKEN_KEY) = Some rt') as Htr.
  { change REFRESH_TOKEN_KEY with "refresh_token". rewrite Hrf. by apply truthy_Some. }
  split.
  - intros Hlt. apply (getToken_warm_run env (set_now t w') rt' tok); [exact Htr|].
    rewrite (Hin t Hlt). by apply truthy_Some.
  - intros Hge.
    destruct (getToken_miss_log env (set_now t w')
                (logged refresh_hit_log (set_now t w')) rt')
      as (out & w'' & rest & Hrun & Hlog).
    + by apply getRefreshToken_hit.
    + change (KV_lookup (logged ?es ?v) ?k) with (KV_lookup v k).
      by rewrite (Hout t Hge).
    + exists out, w'', rest. split; [exact Hrun|]. rewrite Hlog.
      unfold logged, refresh_hit_log. heap_simpl. by rewrite <- app_assoc.
Qed.

(** ** More on the orchestrator *)

Lemma token_field_NetOk field answer t :
  token_field field answer = Some t → ∃ r, answer = NetOk r.
Proof. intros (r & _ & -> & _)%token_field_Some. eauto. Qed.

(** X1.  A call with nothing cached and nothing stored.  With the
    credentials configured, no live cache entry, no usable token in the KV
    namespace and an upstream that answers the login, the refresh and the
    data request, [get] does, in this order: the cache lookup, the login,
    the write of the refresh token (TTL 518400), the refresh carrying that
    token, the write of the ID token (TTL 82800), the data request carrying
    [Bearer] and the ID token, and, only if the answer is 2xx, the
    scheduling of its copy.  It makes three upstream requests and returns
    the data response as received. *)
Theorem get_cold_start (env : Env) (endpoint : string) (w : World)
    (rt tok : string) (r : Response) :
  configured env →
  edge_fault w = None →
  edge_lookup w (API_BASE_URL +:+ endpoint) = None →
  truthy (KV_lookup w REFRESH_TOKEN_KEY) = None →
  truthy (KV_lookup w ID_TOKEN_KEY) = None →
  token_field "refreshToken"
    (upstream w (fetches w) (auth_user_request env)) = Some rt →
  token_field "idToken"
    (upstream w (S (fetches w)) (auth_refresh_request rt)) = Some tok →
  upstream w (S (S (fetches w)))
    (bearer_request (API_BASE_URL +:+ endpoint) tok) = NetOk r →
  ∃ (l : loc) (w' : World),
    get env endpoint w = (Return l, w') ∧
    heap w' !! l = Some (incoming r) ∧
    log w' =
      log w ++
      [CacheMatch (API_BASE_URL +:+ endpoint);
       KvGet "refresh_token";
       ConsoleDebug "Cached token not found, fetching new refresh token";
       Fetch (auth_user_request env);
       KvPut "refresh_token" rt 518400;
       KvGet "id_token";
       ConsoleDebug "Cached token not found, fetching new ID token";
       Fetch (auth_refresh_request rt);
       KvPut "id_token" tok 82800;
       Fetch (bearer_request (API_BASE_URL +:+ endpoint) tok)] ++
      (if ok r then [CachePut (API_BASE_URL +:+ endpoint) (S (S l))] else []) ∧
    background w' =
      background w ++
      (if ok r then [PutTask (API_BASE_URL +:+ endpoint) (S (S l))] else []) ∧
    fetches w' = S (S (S (fetches w))) ∧
    KV_lookup w' "refresh_token" = Some rt ∧
    KV_lookup w' "id_token" = Some tok.
Proof.
  intros Hcfg Hf He Hkr Hki Hrt Htok Hup.
  set (url := API_BASE_URL +:+ endpoint) in *.
  rewrite get_configured by done. fold url.
  pose proof (getCache_miss url w Hf He) as Hc.
  fold (logged [CacheMatch url] w) in Hc.
  set (w1 := logged [CacheMatch url] w) in *.
  pose proof (getRefreshToken_miss_ok env w1 rt Hkr Hrt) as Hr.
  set (w2 := kv_stored REFRESH_TOKEN_KEY rt REFRESH_TOKEN_TTL _) in Hr.
  assert (upstream w2 = upstream w) as Hu2.
  { unfold w2. change (upstream (kv_stored ?k ?v ?ttl ?x)) with (upstream x).
    by rewrite upstream_after_fetch. }
  assert (fetches w2 = S (fetches w)) as Hn2.
  { unfold w2. change (fetches (kv_stored ?k ?v ?ttl ?x)) with (fetches x).
    by rewrite fetches_after_fetch. }
  assert (truthy (KV_lookup w2 ID_TOKEN_KEY) = None) as Hki2.
  { unfold w2. rewrite KV_lookup_kv_stored_ne by done.
    by rewrite KV_lookup_after_fetch. }
  assert (token_field "idToken"
            (upstream w2 (fetches w2) (auth_refresh_request rt)) = Some tok) as Htok2
    by (by rewrite Hu2, Hn2).
  pose proof (getToken_miss_ok env w1 w2 rt tok Hr Hki2 Htok2) as Ht.
  set (w3 := kv_stored ID_TOKEN_KEY tok ID_TOKEN_TTL _) in Ht.
  assert (upstream w3 = upstream w) as Hu3.
  { unfold w3. change (upstream (kv_stored ?k ?v ?ttl ?x)) with (upstream x).
    by rewrite upstream_after_fetch. }
  assert (fetches w3 = S (S (fetches w))) as Hn3.
  { unfold w3. change (fetches (kv_stored ?k ?v ?ttl ?x)) with (fetches x).
    rewrite fetches_after_fetch. by rewrite <- Hn2. }
  assert (upstream w3 (fetches w3) (bearer_request url tok) = NetOk r) as Hup3
    by (by rewrite Hu3, Hn3).
  assert (log w3 =
          log w ++
          [CacheMatch url; KvGet "refresh_token";
           ConsoleDebug "Cached token not found, fetching new refresh token";
           Fetch (auth_user_request env); KvPut "refresh_token" rt 518400;
           KvGet "id_token";
           ConsoleDebug "Cached token not found, fetching new ID token";
           Fetch (auth_refresh_request rt); KvPut "id_token" tok 82800]) as Hlog3.
  { unfold w3, kv_stored, logged. heap_simpl. rewrite log_after_fetch.
    unfold id_miss_log, logged. heap_simpl.
    unfold w2, kv_stored, logged. heap_simpl. rewrite log_after_fetch.
    unfold refresh_miss_log, w1, logged. heap_simpl.
    by rewrite <- !app_assoc. }
  assert (background w3 = background w) as Hbg3.
  { pose proof (getToken_frame _ _ _ _ Ht) as (_ & _ & _ & Hb & _). exact Hb. }
  pose proof (getToken_Return _ _ _ _ Ht) as (_ & _ & Hid & rt' & _ & Hrf).
  assert (rt' = rt) as ->.
  { unfold w3 in Hrf. rewrite KV_lookup_kv_stored_ne in Hrf by done.
    rewrite KV_lookup_after_fetch in Hrf.
    change (KV_lookup (logged ?es ?v) ?k) with (KV_lookup v k) in Hrf.
    pose proof (getRefreshToken_Return _ _ _ _ Hr) as (_ & _ & Hrf' & _).
    congruence. }
  rewrite (fetchWithCache_miss env url w w1 w3 tok Hc Ht). rewrite Hup3.
  eexists _, _. split; [reflexivity|].
  unfold after_upstream. rewrite Hup3.
  destruct (ok r); unfold allocated, logged; heap_simpl; rewrite Hlog3, Hbg3, Hn3.
  - split; [by apply list_lookup_middle|].
    split; [by rewrite <- !app_assoc|]. done.
  - split; [reflexivity|].
    split; [by rewrite <- !app_assoc, app_nil_r|]. by rewrite app_nil_r.
Qed.

(** X9.  A transport failure of the data request is surfaced and costs
    nothing but the request: [#fetchWithCache] throws the error of [fetch],
    schedules nothing, leaves the edge cache alone, and the tokens it
    obtained stay in the KV namespace for the next call. *)
Theorem fetchWithCache_transport_failure (env : Env) (url : string)
    (w w1 w2 : World) (tok msg : string) :
  getCache url w = (Return None, w1) →
  getToken env w1 = (Return tok, w2) →
  upstream w2 (fetches w2) (bearer_request url tok) = NetFail msg →
  ∃ w3 : World,
    fetchWithCache env url w = (Throw (FetchError msg), w3) ∧
    log w3 = log w2 ++ [Fetch (bearer_request url tok)] ∧
    background w3 = background w ∧ edge w3 = edge w ∧
    heap w3 = heap w2 ∧ KV w3 = KV w2 ∧
    KV_lookup w3 "id_token" = Some tok.
Proof.
  intros Hc Ht Hup.
  pose proof (getCache_None _ _ _ Hc) as (Hf & He & ->).
  pose proof (getToken_Return _ _ _ _ Ht) as (Hfr & _ & Hid & _).
  destruct Hfr as (_ & Hedge & _ & Hbg & _).
  rewrite (fetchWithCache_miss env url w _ w2 tok Hc Ht). rewrite Hup.
  eexists. split; [reflexivity|].
  unfold after_upstream. rewrite Hup. unfold logged. heap_simpl. done.
Qed.

(** X14.  A failed token resolution stops the call.  When [#getToken]
    throws on a cache miss, [#fetchWithCache] throws the same error: the
    data request is never sent, nothing is scheduled for the cache and the
    edge cache is unchanged. *)
Theorem fetchWithCache_token_failure (env : Env) (url : string)
    (w w1 w2 : World) (e : Exn) :
  getCache url w = (Return None, w1) →
  getToken env w1 = (Throw e, w2) →
  fetchWithCache env url w = (Throw e, w2) ∧
  background w2 = background w ∧ edge w2 = edge w ∧
  ∃ es, log w2 = log w ++ CacheMatch url :: es ∧
        Forall (token_event (auth_user_request env) auth_refresh_request) es ∧
        ∀ tok, Fetch (bearer_request url tok) ∉ es.
Proof.
  intros Hc Ht.
  pose proof (getCache_None _ _ _ Hc) as (Hf & He & ->).
  split; [by eapply fetchWithCache_token_throws|].
  pose proof (getToken_frame _ _ _ _ Ht) as (_ & Hedge & _ & Hbg & _).
  split; [exact Hbg|]. split; [exact Hedge|].
  destruct (getToken_events _ _ _ _ Ht) as (es & Hlog & Hes).
  exists es. split; [rewrite Hlog; unfold logged; heap_simpl; by rewrite <- app_assoc|].
  split; [exact Hes|].
  intros tok Hin. rewrite Forall_forall in Hes. apply Hes in Hin.
  cbn in Hin. destruct Hin as [Heq|(rt & _ & Heq)]; discriminate Heq.
Qed.

(** X8.  The age header when the [date] header is unusable.  On a cache hit
    whose entry has a [date] header: if it is the empty string the age
    header is not set; if it is not a date the age header is the text
    "NaN"; if it is a date later than the present instant the age header is
    a negative number. *)
Theorem cache_hit_age_edge_cases (url : string) (w : World)
    (entry : Response) (expiry : Z) (date : string) :
  edge_fault w = None →
  edge w !! url = Some (entry, expiry) →
  now w < expiry →
  headers entry !! "date" = Some date →
  ∃ (l : loc) (r : Response) (w' : World),
    getCache url w = (Return (Some l), w') ∧
    heap w' !! l = Some r ∧
    (date = "" →
       headers r !! "x-proxy-cache-age" = headers entry !! "x-proxy-cache-age") ∧
    (date ≠ "" → Date_getTime date = None →
       headers r !! "x-proxy-cache-age" = Some "NaN") ∧
    (date ≠ "" → ∀ T, Date_getTime date = Some T → now w < T →
       ∃ a, a < 0 ∧ headers r !! "x-proxy-cache-age" = Some (pretty a)).
Proof.
  intros Hf He Ht Hd.
  rewrite (getCache_hit _ _ entry) by eauto using edge_lookup_live.
  eexists _, _, _. split; [reflexivity|].
  split; [unfold allocated, logged; heap_simpl; apply lookup_snoc2|].
  cbn [headers]. split; [|split].
  - intros ->. apply served_headers_age_nodate. by rewrite Hd.
  - intros Hne Hnan. erewrite served_headers_age_date by done. by rewrite Hnan.
  - intros Hne T HT Hlt. erewrite served_headers_age_date by done.
    rewrite HT. exists ((now w - T) `div` 1000). split; [|done].
    apply Z.div_lt_upper_bound; lia.
Qed.

Lemma heap_after_fetch (req : Request) (w : World) :
  ∃ hs, heap (after_fetch req w) = heap w ++ hs.
Proof.
  unfold after_fetch. destruct (upstream w _ _); unfold allocated, logged;
    heap_simpl; [eauto|]. exists []. by rewrite app_nil_r.
Qed.

Lemma getRefreshToken_bounds (env : Env) (w w' : World) out :
  getRefreshToken env w = (out, w') →
  (fetches w ≤ fetches w' ≤ fetches w + 1)%nat ∧
  ∃ hs, heap w' = heap w ++ hs.
Proof.
  intros H.
  destruct (getRefreshToken_cases env w)
    as [(t & Hk & E)|[(t & Hk & Ht & E)|(e & Hk & Ht & E)]];
    rewrite E in H; simplify_eq.
  - split; [cbn; lia|]. exists []. by rewrite app_nil_r.
  - change (fetches (kv_stored ?k ?v ?ttl ?x)) with (fetches x).
    change (heap (kv_stored ?k ?v ?ttl ?x)) with (heap x).
    rewrite fetches_after_fetch. split; [cbn; lia|].
    destruct (heap_after_fetch (auth_user_request env) (logged refresh_miss_log w))
      as [hs Hh]. exists hs. exact Hh.
  - rewrite fetches_after_fetch. split; [cbn; lia|].
    destruct (heap_after_fetch (auth_user_request env) (logged refresh_miss_log w))
      as [hs Hh]. exists hs. exact Hh.
Qed.

Lemma getToken_bounds (env : Env) (w w' : World) out :
  getToken env w = (out, w') →
  (fetches w ≤ fetches w' ≤ fetches w + 2)%nat ∧
  ∃ hs, heap w' = heap w ++ hs.
Proof.
  intros H.
  destruct (getToken_cases env w)
    as [(e & w1 & Hr & E)|(rt & w1 & Hr & [(t & Hk & E)|[(t & Hk & Ht & E)|(e & Hk & Ht & E)]])];
    rewrite E in H; simplify_eq;
    apply getRefreshToken_bounds in Hr as (Hn & hs & Hh).
  - split; [lia|eauto].
  - split; [cbn; lia|]. exists hs. exact Hh.
  - change (fetches (kv_stored ?k ?v ?ttl ?x)) with (fetches x).
    change (heap (kv_stored ?k ?v ?ttl ?x)) with (heap x).
    rewrite fetches_after_fetch. split; [cbn; lia|].
    destruct (heap_after_fetch (auth_refresh_request rt) (logged id_miss_log w1))
      as [hs' ->].
    exists (hs ++ hs'). cbn [heap logged set_log]. unfold logged. cbn [heap set_log].
    by rewrite Hh, app_assoc.
  - rewrite fetches_after_fetch. split; [cbn; lia|].
    destruct (heap_after_fetch (auth_refresh_request rt) (logged id_miss_log w1))
      as [hs' ->].
    exists (hs ++ hs'). unfold logged. cbn [heap set_log].
    by rewrite Hh, app_assoc.
Qed.

(** X15.  What one call can do at most.  Whatever its outcome, [get] never
    writes to the edge cache itself and never moves the clock; it leaves
    every existing object as it was; it sends at most three upstream
    requests; and it hands [waitUntil] at most one promise, which is the
    storing of a response under the URL that was asked for. *)
Theorem get_footprint (env : Env) (endpoint : string) (w : World) :
  edge (get env endpoint w).2 = edge w ∧
  now (get env endpoint w).2 = now w ∧
  (∀ l r, heap w !! l = Some r → heap (get env endpoint w).2 !! l = Some r) ∧
  (fetches w ≤ fetches (get env endpoint w).2 ≤ fetches w + 3)%nat ∧
  (background (get env endpoint w).2 = background w ∨
   ∃ l, background (get env endpoint w).2 =
          background w ++ [PutTask (API_BASE_URL +:+ endpoint) l]).
Proof.
  set (url := API_BASE_URL +:+ endpoint).
  assert (∀ (h hs : list Response) l r,
            h !! l = Some r → (h ++ hs) !! l = Some r) as Hold.
  { intros h hs l r Hl. by apply lookup_app_l_Some. }
  destruct (get env endpoint w) as [out w'] eqn:Hget. cbn [snd].
  unfold get, checkConfig in Hget. unfold bind at 1 in Hget.
  destruct (falsy _ || falsy _); cbn [throw ret] in Hget.
  { simplify_eq. repeat split; try done; try lia. by left. }
  fold url in Hget.
  destruct (edge_fault w) as [msg|] eqn:Hf.
  { unfold fetchWithCache, bind in Hget.
    rewrite (getCache_fault _ msg) in Hget by done. simplify_eq.
    repeat split; try done; try (cbn; lia). by left. }
  destruct (edge_lookup w url) as [entry|] eqn:He.
  { unfold fetchWithCache, bind, ret in Hget.
    rewrite (getCache_hit _ _ entry) in Hget by done. simplify_eq.
    unfold allocated, logged. heap_simpl.
    repeat split; try done; try lia; [by apply Hold|by left]. }
  pose proof (getCache_miss url w Hf He) as Hc.
  destruct (getToken env (set_log (log w ++ [CacheMatch url]) w))
    as [[tok|e] w2] eqn:Ht;
    pose proof (getToken_frame _ _ _ _ Ht) as (Hnow & Hedge & _ & Hbg & _);
    pose proof (getToken_bounds _ _ _ _ Ht) as (Hn & hs & Hh);
    cbn [now edge background fetches heap set_log] in Hnow, Hedge, Hbg, Hn, Hh.
  - rewrite (fetchWithCache_miss env url w _ w2 tok Hc Ht) in Hget.
    simplify_eq. unfold after_upstream.
    destruct (upstream w2 (fetches w2) (bearer_request url tok)) as [r|msg];
      [destruct (ok r)|]; unfold allocated, logged; heap_simpl; rewrite ?Hh;
      (split; [done|]); (split; [done|]);
      (split; [intros l r' Hl; rewrite <- ?app_assoc; by apply Hold|]);
      (split; [lia|]); rewrite Hbg; eauto.
  - rewrite (fetchWithCache_token_throws env url w _ w2 e Hc Ht) in Hget.
    simplify_eq. rewrite Hh. split; [done|]. split; [done|].
    split; [intros l r' Hl; by apply Hold|]. split; [lia|]. by left.
Qed.

End Proofs.

(** * The model at concrete inputs *)

#[local] Existing Instance sample_platform.

(** C3, evaluated on the code: the KV namespace holds a live ID token but
    no refresh token.  [#getToken] resolves the refresh token before it
    looks at the ID token, so it reads the "refresh_token" key and calls the
    login endpoint.  When the login fails the call throws although the
    cached ID token is there; when the login succeeds the call returns the
    cached ID token after one upstream call and one write to the store. *)
Theorem getToken_resolves_refresh_token_first :
  KV_lookup (cached_id_world rejecting_upstream) ID_TOKEN_KEY = Some "id-cached" ∧
  fst (getToken sample_env (cached_id_world rejecting_upstream)) =
    Throw (JsError "JQuants refresh token not found in response") ∧
  log (snd (getToken sample_env (cached_id_world rejecting_upstream))) =
    [KvGet "refresh_token";
     ConsoleDebug "Cached token not found, fetching new refresh token";
     Fetch (auth_user_request sample_env)] ∧
  fst (getToken sample_env
         (cached_id_world (sample_upstream sample_date_headers 200))) =
    Return "id-cached" ∧
  log (snd (getToken sample_env
              (cached_id_world (sample_upstream sample_date_headers 200)))) =
    [KvGet "refresh_token";
     ConsoleDebug "Cached token not found, fetching new refresh token";
     Fetch (auth_user_request sample_env);
     KvPut "refresh_token" "rt-1" 518400;
     KvGet "id_token"; ConsoleDebug "Cached ID token found"].
Proof. vm_compute. repeat split. Qed.

(** C1 does not hold as stated: a live entry without a [date] header is
    served without the [x-proxy-cache-age] header. *)
Lemma get_cache_hit_without_age_header :
  edge (warm_world undated_entry) !! sample_url =
    Some (undated_entry, 1767226200000) ∧
  now (warm_world undated_entry) < 1767226200000 ∧
  fst (get sample_env "/v1/x" (warm_world undated_entry)) = Return 1%nat ∧
  (headers <$> heap (snd (get sample_env "/v1/x" (warm_world undated_entry))) !! 1%nat) =
    Some {["content-type" := "application/json"; "x-proxy-cache-maxage" := "600"]} ∧
  ({["content-type" := "application/json"; "x-proxy-cache-maxage" := "600"]}
     : gmap string string) !! X_PROXY_CACHE_AGE_KEY = None.
Proof. vm_compute. repeat split. Qed.

(** C2 does not hold as stated: a 200 response that carries
    [Cache-Control: no-store] is stored all the same, under the directive
    that [putCache] writes over it, and the next call is served from the
    cache. *)
Lemma no_store_response_is_cached :
  let w' := snd (get sample_env "/v1/x" (cold_world no_store_headers 200)) in
  fst (get sample_env "/v1/x" (cold_world no_store_headers 200)) = Return 2%nat ∧
  (headers <$> heap w' !! 2%nat) = Some no_store_headers ∧
  background w' = [PutTask sample_url 4%nat] ∧
  (headers <$> heap w' !! 4%nat) =
    Some (<["cache-control" := "public, s-maxage=600"]> no_store_headers) ∧
  (snd <$> edge (settle w') !! sample_url) = Some (1767225600000 + 600000) ∧
  log (snd (get sample_env "/v1/x" (settle w'))) = log w' ++ [CacheMatch sample_url].
Proof. vm_compute. repeat split. Qed.

(** C4 does not hold as stated: when the cache backend fails, [get] throws
    the backend's error and never reaches the upstream. *)
Lemma cache_error_reaches_caller :
  edge_fault faulty_world = Some "cache backend unavailable" ∧
  get sample_env "/v1/x" faulty_world =
    (Throw (CacheError "cache backend unavailable"),
     set_log [CacheMatch sample_url] faulty_world).
Proof. vm_compute. repeat split. Qed.

(** ** The theorems above at concrete inputs *)

Lemma get_cache_hit_witness :
  configured sample_env ∧
  edge_fault (warm_world dated_entry) = None ∧
  edge (warm_world dated_entry) !! (API_BASE_URL +:+ "/v1/x") =
    Some (dated_entry, 1767226200000) ∧
  now (warm_world dated_entry) < 1767226200000 ∧
  ∃ l r w',
    get sample_env "/v1/x" (warm_world dated_entry) = (Return l, w') ∧
    heap w' !! l = Some r ∧ body r = body dated_entry ∧
    headers r !! "cache-control" = None ∧
    headers r !! "x-proxy-cache-maxage" = Some "600" ∧
    is_Some (headers r !! "x-proxy-cache-age") ∧
    log w' = [CacheMatch sample_url] ∧ fetches w' = 0%nat.
Proof.
  assert (configured sample_env) as Hc.
  { split; eexists; (split; [reflexivity|discriminate]). }
  assert (edge_fault (warm_world dated_entry) = None) as Hf by reflexivity.
  assert (edge (warm_world dated_entry) !! (API_BASE_URL +:+ "/v1/x") =
            Some (dated_entry, 1767226200000)) as He by (vm_compute; reflexivity).
  assert (now (warm_world dated_entry) < 1767226200000) as Ht by (vm_compute; reflexivity).
  do 4 (split; [assumption|]).
  destruct (get_cache_hit sample_env "/v1/x" (warm_world dated_entry)
              dated_entry 1767226200000 Hc Hf He Ht)
    as (l & r & w' & Hget & Hl & _ & _ & Hb & Hcc & Hmax & Hage & _ & _ & Hlog & Hn & _).
  exists l, r, w'. repeat split; try assumption.
  apply (Hage "Thu, 01 Jan 2026 00:00:00 GMT"); [vm_compute; reflexivity|discriminate].
Defined.

Lemma upstream_response_cached_iff_ok_witness :
  let w := cold_world sample_date_headers 500 in
  let w1 := set_log [CacheMatch sample_url] w in
  let w2 := snd (getToken sample_env w1) in
  getCache sample_url w = (Return None, w1) ∧
  getToken sample_env w1 = (Return "id-1", w2) ∧
  upstream w2 (fetches w2) (bearer_request sample_url "id-1") = NetOk server_error ∧
  ¬ 200 ≤ status server_error ≤ 299 ∧
  ∃ l w3,
    fetchWithCache sample_env sample_url w = (Return l, w3) ∧
    heap w3 !! l = Some (incoming server_error) ∧
    background w3 = [].
Proof.
  intros w w1 w2.
  assert (getCache sample_url w = (Return None, w1)) as Hc by (vm_compute; reflexivity).
  assert (getToken sample_env w1 = (Return "id-1", w2)) as Ht by (vm_compute; reflexivity).
  assert (upstream w2 (fetches w2) (bearer_request sample_url "id-1") =
            NetOk server_error) as Hu by (vm_compute; reflexivity).
  assert (¬ 200 ≤ status server_error ≤ 299) as Hs by (cbn; lia).
  do 4 (split; [assumption|]).
  destruct (upstream_response_cached_iff_ok sample_env sample_url w w1 w2
              "id-1" server_error Hc Ht Hu)
    as (l & w3 & Hrun & Hl & _ & _ & Hno).
  exists l, w3. do 2 (split; [assumption|]).
  exact (proj1 (Hno Hs)).
Defined.

Lemma get_cache_backend_error_witness :
  configured sample_env ∧
  edge_fault faulty_world = Some "cache backend unavailable" ∧
  get sample_env "/v1/x" faulty_world =
    (Throw (CacheError "cache backend unavailable"),
     set_log (log faulty_world ++ [CacheMatch (API_BASE_URL +:+ "/v1/x")]) faulty_world).
Proof.
  assert (configured sample_env) as Hc.
  { split; eexists; (split; [reflexivity|discriminate]). }
  assert (edge_fault faulty_world = Some "cache backend unavailable") as Hf
    by reflexivity.
  do 2 (split; [assumption|]).
  apply (get_cache_backend_error sample_env "/v1/x" _ faulty_world Hc Hf).
Defined.

Lemma get_missing_config_witness :
  JQUANTS_API_EMAIL unconfigured_env = None ∧
  get unconfigured_env "/v1/x" (cold_world sample_date_headers 200) =
    (Throw (JsError "JQUANTS_API_EMAIL or JQUANTS_API_PW is not set"),
     cold_world sample_date_headers 200).
Proof.
  split; [reflexivity|].
  apply (get_missing_config unconfigured_env "/v1/x"). left. reflexivity.
Defined.

Lemma token_acquisition_failure_witness :
  let w := empty_world 1767225600000 rejecting_upstream in
  let v := empty_world 1767225600000 empty_id_upstream in
  let v1 := snd (getRefreshToken sample_env v) in
  token_field "refreshToken"
    (upstream w (fetches w) (auth_user_request sample_env)) = None ∧
  truthy (KV_lookup w REFRESH_TOKEN_KEY) = None ∧
  (∃ e w', getRefreshToken sample_env w = (Throw e, w') ∧
           getToken sample_env w = (Throw e, w') ∧ KV w' = KV w) ∧
  getRefreshToken sample_env v = (Return "rt-1", v1) ∧
  token_field "idToken"
    (upstream v1 (fetches v1) (auth_refresh_request "rt-1")) = None ∧
  truthy (KV_lookup v1 ID_TOKEN_KEY) = None ∧
  (∃ e w', getToken sample_env v = (Throw e, w') ∧ KV w' = KV v1).
Proof.
  intros w v v1.
  destruct (token_acquisition_failure sample_env) as (_ & _ & _ & Hrefresh & Hid).
  assert (token_field "refreshToken"
            (upstream w (fetches w) (auth_user_request sample_env)) = None) as H1
    by (vm_compute; reflexivity).
  assert (truthy (KV_lookup w REFRESH_TOKEN_KEY) = None) as H2
    by (vm_compute; reflexivity).
  assert (getRefreshToken sample_env v = (Return "rt-1", v1)) as H3
    by (vm_compute; reflexivity).
  assert (token_field "idToken"
            (upstream v1 (fetches v1) (auth_refresh_request "rt-1")) = None) as H4
    by (vm_compute; reflexivity).
  assert (truthy (KV_lookup v1 ID_TOKEN_KEY) = None) as H5
    by (vm_compute; reflexivity).
  split; [assumption|]. split; [assumption|].
  split; [exact (proj2 (Hrefresh w H1) H2)|].
  split; [assumption|]. split; [assumption|]. split; [assumption|].
  exact (proj2 (Hid v "rt-1" v1 H3 H4) H5).
Defined.

Lemma cache_hit_debug_headers_witness :
  edge_fault (warm_world dated_entry) = None ∧
  edge (warm_world dated_entry) !! sample_url = Some (dated_entry, 1767226200000) ∧
  now (warm_world dated_entry) < 1767226200000 ∧
  headers dated_entry !! "date" = Some "Thu, 01 Jan 2026 00:00:00 GMT" ∧
  Date_getTime "Thu, 01 Jan 2026 00:00:00 GMT" = Some 1767225600000 ∧
  now (warm_world dated_entry) = 1767225600000 + 1000 * 125 + 500 ∧
  ∃ l r w',
    getCache sample_url (warm_world dated_entry) = (Return (Some l), w') ∧
    heap w' !! l = Some r ∧
    headers r !! X_PROXY_CACHE_MAXAGE_KEY = Some "600" ∧
    headers r !! X_PROXY_CACHE_AGE_KEY = Some "125".
Proof.
  assert (edge_fault (warm_world dated_entry) = None) as Hf by reflexivity.
  assert (edge (warm_world dated_entry) !! sample_url =
            Some (dated_entry, 1767226200000)) as He by (vm_compute; reflexivity).
  assert (now (warm_world dated_entry) < 1767226200000) as Ht by (vm_compute; reflexivity).
  assert (headers dated_entry !! "date" = Some "Thu, 01 Jan 2026 00:00:00 GMT") as Hd
    by (vm_compute; reflexivity).
  assert (Date_getTime "Thu, 01 Jan 2026 00:00:00 GMT" = Some 1767225600000) as HT
    by (vm_compute; reflexivity).
  assert (now (warm_world dated_entry) = 1767225600000 + 1000 * 125 + 500) as Hn
    by (vm_compute; reflexivity).
  do 6 (split; [assumption|]).
  destruct (cache_hit_debug_headers sample_url (warm_world dated_entry)
              dated_entry 1767226200000 Hf He Ht)
    as (l & r & w' & Hget & Hl & Hmax & Hage & _).
  exists l, r, w'. do 3 (split; [assumption|]).
  refine (proj2 (Hage _ 1767225600000 Hd _ HT) 125 500 Hn _);
    [discriminate | lia].
Defined.

Lemma putCache_leaves_original_witness :
  heap one_response_world !! 0%nat = Some no_store_response ∧
  bodyUsed no_store_response = false ∧
  headers no_store_response !! "cache-control" = Some "no-store" ∧
  ∃ w' l2 stored,
    putCache sample_url 0%nat one_response_world = (Return tt, w') ∧
    heap w' !! 0%nat = Some no_store_response ∧
    l2 ≠ 0%nat ∧
    background w' = [PutTask sample_url l2] ∧
    heap w' !! l2 = Some stored ∧
    headers stored !! "cache-control" = Some "public, s-maxage=600" ∧
    body stored = body no_store_response ∧
    stream_of w' l2 ≠ stream_of w' 0%nat.
Proof.
  assert (heap one_response_world !! 0%nat = Some no_store_response) as Hl
    by reflexivity.
  assert (bodyUsed no_store_response = false) as Hb by reflexivity.
  do 2 (split; [assumption|]). split; [reflexivity|].
  destruct (putCache_leaves_original sample_url 0%nat one_response_world
              no_store_response Hl)
    as (out & w' & Hrun & Horig & _ & Hclone).
  destruct (Hclone Hb)
    as (-> & l2 & stored & Hne & _ & Hbg & Hst & Hh & _ & _ & Hbody & Hstream).
  exists w', l2, stored. do 5 (split; [assumption|]).
  split; [rewrite Hh; apply lookup_insert_eq|]. split; assumption.
Defined.

Lemma token_keys_and_ttls_witness :
  let w := cold_world sample_date_headers 200 in
  let w1 := snd (getRefreshToken sample_env w) in
  truthy (KV_lookup w REFRESH_TOKEN_KEY) = None ∧
  token_field "refreshToken"
    (upstream w (fetches w) (auth_user_request sample_env)) = Some "rt-1" ∧
  (∃ w', getRefreshToken sample_env w = (Return "rt-1", w') ∧
         KV w' = <["refresh_token" := ("rt-1", Some (now w + 1000 * 518400))]> (KV w) ∧
         last (log w') = Some (KvPut "refresh_token" "rt-1" 518400)) ∧
  getRefreshToken sample_env w = (Return "rt-1", w1) ∧
  truthy (KV_lookup w1 ID_TOKEN_KEY) = None ∧
  token_field "idToken"
    (upstream w1 (fetches w1) (auth_refresh_request "rt-1")) = Some "id-1" ∧
  (∃ w', getToken sample_env w = (Return "id-1", w') ∧
         KV w' = <["id_token" := ("id-1", Some (now w1 + 1000 * 82800))]> (KV w1) ∧
         last (log w') = Some (KvPut "id_token" "id-1" 82800)).
Proof.
  intros w w1.
  destruct (token_keys_and_ttls sample_env)
    as (_ & _ & _ & _ & _ & _ & _ & _ & Hrefresh & Hid).
  assert (truthy (KV_lookup w REFRESH_TOKEN_KEY) = None) as H1
    by (vm_compute; reflexivity).
  assert (token_field "refreshToken"
            (upstream w (fetches w) (auth_user_request sample_env)) = Some "rt-1") as H2
    by (vm_compute; reflexivity).
  assert (getRefreshToken sample_env w = (Return "rt-1", w1)) as H3
    by (vm_compute; reflexivity).
  assert (truthy (KV_lookup w1 ID_TOKEN_KEY) = None) as H4
    by (vm_compute; reflexivity).
  assert (token_field "idToken"
            (upstream w1 (fetches w1) (auth_refresh_request "rt-1")) = Some "id-1") as H5
    by (vm_compute; reflexivity).
  split; [assumption|]. split; [assumption|].
  split; [exact (Hrefresh w "rt-1" H1 H2)|].
  split; [assumption|]. split; [assumption|]. split; [assumption|].
  exact (Hid w "rt-1" w1 "id-1" H3 H4 H5).
Defined.

Lemma tokens_never_empty_witness :
  let w := cold_world sample_date_headers 200 in
  let v := empty_token_world in
  getToken sample_env w = (Return "id-1", snd (getToken sample_env w)) ∧
  "id-1" ≠ "" ∧
  KV_lookup v REFRESH_TOKEN_KEY = Some "" ∧
  (∃ out w' rest,
     getRefreshToken sample_env v = (out, w') ∧
     (∀ t, out = Return t → t ≠ "" ∧ KV_lookup w' REFRESH_TOKEN_KEY = Some t) ∧
     log w' =
       log v ++
       [KvGet "refresh_token";
        ConsoleDebug "Cached token not found, fetching new refresh token";
        Fetch (auth_user_request sample_env)] ++ rest).
Proof.
  intros w v.
  assert (getToken sample_env w = (Return "id-1", snd (getToken sample_env w))) as H1
    by (vm_compute; reflexivity).
  assert (KV_lookup v REFRESH_TOKEN_KEY = Some "") as H2 by (vm_compute; reflexivity).
  split; [assumption|].
  split; [exact (proj1 (proj2 (tokens_never_empty sample_env w)) _ _ H1)|].
  split; [assumption|].
  exact (proj1 (proj2 (proj2 (tokens_never_empty sample_env v))) H2).
Defined.

(** ** The further properties at concrete inputs *)

Lemma sample_env_configured : configured sample_env.
Proof. split; eexists; (split; [reflexivity|discriminate]). Defined.

Lemma get_cold_start_witness :
  let w := cold_world sample_date_headers 200 in
  configured sample_env ∧ edge_fault w = None ∧
  edge_lookup w (API_BASE_URL +:+ "/v1/x") = None ∧
  truthy (KV_lookup w REFRESH_TOKEN_KEY) = None ∧
  truthy (KV_lookup w ID_TOKEN_KEY) = None ∧
  token_field "refreshToken"
    (upstream w (fetches w) (auth_user_request sample_env)) = Some "rt-1" ∧
  token_field "idToken"
    (upstream w (S (fetches w)) (auth_refresh_request "rt-1")) = Some "id-1" ∧
  upstream w (S (S (fetches w)))
    (bearer_request (API_BASE_URL +:+ "/v1/x") "id-1") =
    NetOk (mkResponse 200 "" sample_date_headers "{'statements':[]}" false true) ∧
  ∃ l w', get sample_env "/v1/x" w = (Return l, w') ∧
          fetches w' = 3%nat ∧
          KV_lookup w' "id_token" = Some "id-1".
Proof.
  intros w.
  assert (edge_fault w = None) as H1 by reflexivity.
  assert (edge_lookup w (API_BASE_URL +:+ "/v1/x") = None) as H2
    by (vm_compute; reflexivity).
  assert (truthy (KV_lookup w REFRESH_TOKEN_KEY) = None) as H3
    by (vm_compute; reflexivity).
  assert (truthy (KV_lookup w ID_TOKEN_KEY) = None) as H4
    by (vm_compute; reflexivity).
  assert (token_field "refreshToken"
            (upstream w (fetches w) (auth_user_request sample_env)) = Some "rt-1") as H5
    by (vm_compute; reflexivity).
  assert (token_field "idToken"
            (upstream w (S (fetches w)) (auth_refresh_request "rt-1")) = Some "id-1") as H6
    by (vm_compute; reflexivity).
  assert (upstream w (S (S (fetches w)))
            (bearer_request (API_BASE_URL +:+ "/v1/x") "id-1") =
          NetOk (mkResponse 200 "" sample_date_headers "{'statements':[]}" false true))
    as H7 by (vm_compute; reflexivity).
  split; [exact sample_env_configured|]. do 7 (split; [assumption|]).
  destruct (get_cold_start sample_env "/v1/x" w "rt-1" "id-1" _
              sample_env_configured H1 H2 H3 H4 H5 H6 H7)
    as (l & w' & Hget & _ & _ & _ & Hn & _ & Hid).
  exists l, w'. by repeat split.
Defined.

Lemma getToken_both_cached_witness :
  KV_lookup warm_token_world "refresh_token" = Some "rt-0" ∧ "rt-0" ≠ "" ∧
  KV_lookup warm_token_world "id_token" = Some "id-0" ∧ "id-0" ≠ "" ∧
  fst (getToken sample_env warm_token_world) = Return "id-0" ∧
  fetches (snd (getToken sample_env warm_token_world)) = 0%nat.
Proof.
  assert (KV_lookup warm_token_world "refresh_token" = Some "rt-0") as H1
    by (vm_compute; reflexivity).
  assert ("rt-0" ≠ "") as H2 by discriminate.
  assert (KV_lookup warm_token_world "id_token" = Some "id-0") as H3
    by (vm_compute; reflexivity).
  assert ("id-0" ≠ "") as H4 by discriminate.
  do 4 (split; [assumption|]).
  rewrite (getToken_both_cached sample_env warm_token_world "rt-0" "id-0" H1 H2 H3 H4).
  split; reflexivity.
Defined.

Lemma refresh_token_ttl_window_witness :
  let w := cold_world sample_date_headers 200 in
  truthy (KV_lookup w REFRESH_TOKEN_KEY) = None ∧
  token_field "refreshToken"
    (upstream w (fetches w) (auth_user_request sample_env)) = Some "rt-1" ∧
  ∃ w', getRefreshToken sample_env w = (Return "rt-1", w') ∧
        fst (getRefreshToken sample_env (set_now (now w + 1000 * 518400 - 1) w')) =
          Return "rt-1" ∧
        KV_lookup (set_now (now w + 1000 * 518400) w') "refresh_token" = None.
Proof.
  intros w.
  assert (truthy (KV_lookup w REFRESH_TOKEN_KEY) = None) as H1
    by (vm_compute; reflexivity).
  assert (token_field "refreshToken"
            (upstream w (fetches w) (auth_user_request sample_env)) = Some "rt-1") as H2
    by (vm_compute; reflexivity).
  do 2 (split; [assumption|]).
  destruct (refresh_token_ttl_window sample_env w "rt-1" H1 H2)
    as (w' & Hrun & Hin & Hout).
  exists w'. split; [assumption|]. split.
  - rewrite Hin by lia. reflexivity.
  - apply Hout. lia.
Defined.

Lemma id_token_ttl_window_witness :
  let w := cold_world sample_date_headers 200 in
  let w1 := snd (getRefreshToken sample_env w) in
  getRefreshToken sample_env w = (Return "rt-1", w1) ∧
  truthy (KV_lookup w1 ID_TOKEN_KEY) = None ∧
  token_field "idToken"
    (upstream w1 (fetches w1) (auth_refresh_request "rt-1")) = Some "id-1" ∧
  ∃ w', getToken sample_env w = (Return "id-1", w') ∧
        KV_lookup (set_now (now w + 1000 * 82800 - 1) w') "id_token" = Some "id-1" ∧
        KV_lookup (set_now (now w + 1000 * 82800) w') "id_token" = None.
Proof.
  intros w w1.
  assert (getRefreshToken sample_env w = (Return "rt-1", w1)) as H1
    by (vm_compute; reflexivity).
  assert (truthy (KV_lookup w1 ID_TOKEN_KEY) = None) as H2
    by (vm_compute; reflexivity).
  assert (token_field "idToken"
            (upstream w1 (fetches w1) (auth_refresh_request "rt-1")) = Some "id-1") as H3
    by (vm_compute; reflexivity).
  do 3 (split; [assumption|]).
  destruct (id_token_ttl_window sample_env w w1 "rt-1" "id-1" H1 H2 H3)
    as (w' & Hrun & Hin & Hout & _).
  exists w'. split; [assumption|]. split; [apply Hin; lia|apply Hout; lia].
Defined.

Lemma cache_hit_age_edge_cases_witness :
  edge_fault (warm_world misdated_entry) = None ∧
  edge (warm_world misdated_entry) !! sample_url =
    Some (misdated_entry, 1767226200000) ∧
  now (warm_world misdated_entry) < 1767226200000 ∧
  headers misdated_entry !! "date" = Some "yesterday" ∧
  Date_getTime "yesterday" = None ∧
  ∃ l r w',
    getCache sample_url (warm_world misdated_entry) = (Return (Some l), w') ∧
    heap w' !! l = Some r ∧
    headers r !! "x-proxy-cache-age" = Some "NaN".
Proof.
  assert (edge_fault (warm_world misdated_entry) = None) as H1 by reflexivity.
  assert (edge (warm_world misdated_entry) !! sample_url =
            Some (misdated_entry, 1767226200000)) as H2 by (vm_compute; reflexivity).
  assert (now (warm_world misdated_entry) < 1767226200000) as H3
    by (vm_compute; reflexivity).
  assert (headers misdated_entry !! "date" = Some "yesterday") as H4
    by (vm_compute; reflexivity).
  assert (Date_getTime "yesterday" = None) as H5 by (vm_compute; reflexivity).
  do 5 (split; [assumption|]).
  destruct (cache_hit_age_edge_cases sample_url (warm_world misdated_entry)
              misdated_entry 1767226200000 "yesterday" H1 H2 H3 H4)
    as (l & r & w' & Hget & Hl & _ & Hnan & _).
  exists l, r, w'. do 2 (split; [assumption|]).
  apply Hnan; [discriminate|assumption].
Defined.

Lemma fetchWithCache_transport_failure_witness :
  let w := empty_world 1767225600000 unreachable_data_upstream in
  let w1 := set_log [CacheMatch sample_url] w in
  let w2 := snd (getToken sample_env w1) in
  getCache sample_url w = (Return None, w1) ∧
  getToken sample_env w1 = (Return "id-1", w2) ∧
  upstream w2 (fetches w2) (bearer_request sample_url "id-1") =
    NetFail "connection reset" ∧
  ∃ w3, fetchWithCache sample_env sample_url w =
          (Throw (FetchError "connection reset"), w3) ∧
        background w3 = [] ∧
        KV_lookup w3 "id_token" = Some "id-1".
Proof.
  intros w w1 w2.
  assert (getCache sample_url w = (Return None, w1)) as H1 by (vm_compute; reflexivity).
  assert (getToken sample_env w1 = (Return "id-1", w2)) as H2
    by (vm_compute; reflexivity).
  assert (upstream w2 (fetches w2) (bearer_request sample_url "id-1") =
            NetFail "connection reset") as H3 by (vm_compute; reflexivity).
  do 3 (split; [assumption|]).
  destruct (fetchWithCache_transport_failure sample_env sample_url w w1 w2
              "id-1" "connection reset" H1 H2 H3)
    as (w3 & Hrun & _ & Hbg & _ & _ & _ & Hid).
  exists w3. by repeat split.
Defined.


Lemma getToken_twice_witness :
  let w := cold_world sample_date_headers 200 in
  let w' := snd (getToken sample_env w) in
  getToken sample_env w = (Return "id-1", w') ∧
  fst (getToken sample_env w') = Return "id-1" ∧
  fetches (snd (getToken sample_env w')) = fetches w'.
Proof.
  intros w w'.
  assert (getToken sample_env w = (Return "id-1", w')) as H1
    by (vm_compute; reflexivity).
  split; [assumption|].
  rewrite (getToken_twice sample_env w w' "id-1" H1).
  split; [reflexivity | apply fetches_set_log].
Defined.

Lemma fetchWithCache_token_failure_witness :
  let w := empty_world 1767225600000 rejecting_upstream in
  let w1 := set_log [CacheMatch sample_url] w in
  let w2 := snd (getToken sample_env w1) in
  getCache sample_url w = (Return None, w1) ∧
  getToken sample_env w1 =
    (Throw (JsError "JQuants refresh token not found in response"), w2) ∧
  fetchWithCache sample_env sample_url w =
    (Throw (JsError "JQuants refresh token not found in response"), w2) ∧
  background w2 = [].
Proof.
  intros w w1 w2.
  assert (getCache sample_url w = (Return None, w1)) as H1 by (vm_compute; reflexivity).
  assert (getToken sample_env w1 =
            (Throw (JsError "JQuants refresh token not found in response"), w2)) as H2
    by (vm_compute; reflexivity).
  do 2 (split; [assumption|]).
  destruct (fetchWithCache_token_failure sample_env sample_url w w1 w2 _ H1 H2)
    as (Hrun & Hbg & _).
  by split.
Defined.
